(** * Sprytile modal tool: grid snapping, axis snapping, UV projection,
      virtual cursor and the paint/build orchestrator

    A shallow embedding of [sprytile_modal.py].  Python floats and the
    components of [mathutils.Vector] are read as real numbers (exact
    arithmetic, no rounding); Python integers are [Z].  A Python
    exception is an explicit [Raise] in the [result] type, and the
    objects the tool mutates ([scene], [self.virtual_cursor],
    [self.bmesh], [self.tree]) are fields of one [World] record that
    every method takes and returns. *)

From Stdlib Require Import Reals Lra Lia ZArith List String Bool.
Import ListNotations.
Open Scope R_scope.

(** ** Python results *)

Inductive exn : Type :=
| ZeroDivisionError
| IndexError
| TypeError
| ValueError.

Inductive result (A : Type) : Type :=
| Ok (a : A)
| Raise (e : exn).
Arguments Ok {A} a.
Arguments Raise {A} e.

Definition bind {A B : Type} (m : result A) (k : A -> result B) : result B :=
  match m with
  | Ok a => k a
  | Raise e => Raise e
  end.

Notation "x <- m ;; k" := (bind m (fun x => k))
  (at level 61, m at next level, right associativity).
Notation "' p <- m ;; k" := (bind m (fun p => k))
  (at level 61, p pattern, m at next level, right associativity).

(** [a / b] on Python numbers: division by zero raises. *)
Definition py_div (a b : R) : result R :=
  if Req_dec_T b 0 then Raise ZeroDivisionError else Ok (a / b).

(** [math.floor]: the largest integer not above the argument. *)
Definition floor (r : R) : Z := Int_part r.

(** [seq[i]] for a non-negative index. *)
Definition py_index {A : Type} (l : list A) (i : nat) : result A :=
  match nth_error l i with
  | Some a => Ok a
  | None => Raise IndexError
  end.

(** ** mathutils.Vector *)

Record Vec : Type := mkVec { vx : R; vy : R; vz : R }.

Definition vzero : Vec := mkVec 0 0 0.
Definition vadd (a b : Vec) : Vec := mkVec (vx a + vx b) (vy a + vy b) (vz a + vz b).
Definition vsub (a b : Vec) : Vec := mkVec (vx a - vx b) (vy a - vy b) (vz a - vz b).
Definition vscale (a : Vec) (k : R) : Vec := mkVec (vx a * k) (vy a * k) (vz a * k).
Definition dot (a b : Vec) : R := vx a * vx b + vy a * vy b + vz a * vz b.
Definition cross (a b : Vec) : Vec :=
  mkVec (vy a * vz b - vz a * vy b)
        (vz a * vx b - vx a * vz b)
        (vx a * vy b - vy a * vx b).
Definition magnitude (a : Vec) : R := sqrt (dot a a).

(** [Vector.normalized()]: the zero vector stays the zero vector. *)
Definition normalized (a : Vec) : Vec :=
  if Req_dec_T (magnitude a) 0 then vzero else vscale a (/ magnitude a).

Declare Scope vec_scope.
Delimit Scope vec_scope with vec.
Bind Scope vec_scope with Vec.
Infix "+v" := vadd (at level 50, left associativity) : vec_scope.
Infix "-v" := vsub (at level 50, left associativity) : vec_scope.
Infix "*v" := vscale (at level 40, left associativity) : vec_scope.
Open Scope vec_scope.

(** ** mathutils.Matrix, restricted to the affine transforms an object's
    [matrix_world] holds: a 3x3 linear part and a translation. *)

Record Matrix : Type := mkMatrix {
  row_x : Vec; row_y : Vec; row_z : Vec;   (* rows of the linear part *)
  translation : Vec
}.

Definition identity_matrix : Matrix :=
  mkMatrix (mkVec 1 0 0) (mkVec 0 1 0) (mkVec 0 0 1) vzero.

(** [matrix * vector]: the vector is extended with a 1. *)
Definition mat_apply (m : Matrix) (v : Vec) : Vec :=
  mkVec (dot (row_x m) v) (dot (row_y m) v) (dot (row_z m) v) +v translation m.

Definition determinant (m : Matrix) : R := dot (row_x m) (cross (row_y m) (row_z m)).

(** [Matrix.inverted()]: raises [ValueError] on a singular matrix. *)
Definition inverted (m : Matrix) : result Matrix :=
  let d := determinant m in
  if Req_dec_T d 0 then Raise ValueError
  else
    let cx := cross (row_y m) (row_z m) *v (/ d) in
    let cy := cross (row_z m) (row_x m) *v (/ d) in
    let cz := cross (row_x m) (row_y m) *v (/ d) in
    let rx := mkVec (vx cx) (vx cy) (vx cz) in
    let ry := mkVec (vy cx) (vy cy) (vy cz) in
    let rz := mkVec (vz cx) (vz cy) (vz cz) in
    let t := translation m in
    Ok (mkMatrix rx ry rz (mkVec (- dot rx t) (- dot ry t) (- dot rz t))).

(** ** mathutils.geometry *)

(** [distance_point_to_plane(pt, plane_co, plane_no)]: the signed
    distance, along the unit normal, from the plane to the point. *)
Definition distance_point_to_plane (pt plane_co plane_no : Vec) : R :=
  dot (normalized plane_no) (pt -v plane_co).

(** [intersect_line_plane(line_a, line_b, plane_co, plane_no)]: the
    point of the line through [line_a] and [line_b] on the plane, or
    [None] when the line is parallel to it. *)
Definition intersect_line_plane (line_a line_b plane_co plane_no : Vec) : option Vec :=
  let u := line_b -v line_a in
  let h := line_a -v plane_co in
  let d := dot plane_no u in
  if Req_dec_T d 0 then None
  else Some (line_a +v u *v (- dot plane_no h / d)).

(** ** Grid math *)

(** [get_grid_pos].  [right_vector *= -1] and the later scalings work
    on the vectors the caller handed in; every caller in the file
    hands in copies, so the function is a function of its values. *)
Definition get_grid_pos (position grid_center right_vector up_vector : Vec)
    (world_pixels grid_x grid_y : Z) : result (Vec * Vec * Vec) :=
  let position_vector := position -v grid_center in
  let pos_vector_normalized := normalized position in
  let right_vector :=
    if Rlt_dec (dot right_vector pos_vector_normalized) 0
    then right_vector *v (-1) else right_vector in
  let up_vector :=
    if Rlt_dec (dot up_vector pos_vector_normalized) 0
    then up_vector *v (-1) else up_vector in
  let x_magnitude := dot position_vector right_vector in
  let y_magnitude := dot position_vector up_vector in
  x_unit <- py_div (IZR grid_x) (IZR world_pixels) ;;
  y_unit <- py_div (IZR grid_y) (IZR world_pixels) ;;
  x_quot <- py_div x_magnitude x_unit ;;
  let x_snap := floor x_quot in
  y_quot <- py_div y_magnitude y_unit ;;
  let y_snap := floor y_quot in
  let right_vector := right_vector *v x_unit in
  let up_vector := up_vector *v y_unit in
  let grid_pos :=
    grid_center +v right_vector *v IZR x_snap +v up_vector *v IZR y_snap in
  Ok (grid_pos, right_vector, up_vector).

(** ** Axis snapper *)

(** Python's [min] over a list keeps the first element and replaces it
    only by a strictly smaller one; [min_scan] returns the position of
    the element [min] returns. *)
Fixpoint min_scan (best_idx : nat) (best : R) (idx : nat) (l : list R) : nat :=
  match l with
  | [] => best_idx
  | x :: t =>
      if Rlt_dec x best then min_scan idx x (S idx) t
      else min_scan best_idx best (S idx) t
  end.

Definition min_index (l : list R) : nat :=
  match l with
  | [] => 0%nat
  | x :: t => min_scan 0 x 1 t
  end.

(** [snap_vector_to_axis].  The three entries of [dot_array] are three
    distinct float objects, so [closest is dot_array[i]] holds exactly
    when [min] returned the object at position [i]. *)
Definition snap_vector_to_axis (vector : Vec) (mirrored : bool) : Vec :=
  let norm_vector := normalized vector in
  let x := mkVec 1 0 0 in
  let y := mkVec 0 1 0 in
  let z := mkVec 0 0 1 in
  let x_dot := 1 - Rabs (dot norm_vector x) in
  let y_dot := 1 - Rabs (dot norm_vector y) in
  let z_dot := 1 - Rabs (dot norm_vector z) in
  let dot_array := [x_dot; y_dot; z_dot] in
  let closest := min_index dot_array in
  let snapped_vector :=
    if Nat.eqb closest 0 then x
    else if Nat.eqb closest 1 then y
    else z in
  let vector_dot := dot norm_vector snapped_vector in
  if negb mirrored && (if Rlt_dec vector_dot 0 then true else false)
  then snapped_vector *v (-1)
  else if mirrored && (if Rlt_dec 0 vector_dot then true else false)
  then snapped_vector *v (-1)
  else snapped_vector.

(** ** Host data the tool reads and writes *)

(** The image behind a grid: [target_img.size]. *)
Record Image : Type := mkImage { size : Z * Z }.

(** One entry of [scene.sprytile_grids]. *)
Record Grid : Type := mkGrid {
  grid : Z * Z;               (* cell size in pixels *)
  tile_selection : Z * Z;
  mat_id : string;
  (** Modelled from the spec: [sprytile_utils.get_grid_texture] is not
      in this file; the spec says a grid may have "no resolvable
      texture", so its result for the grid is kept as an optional
      image. *)
  get_grid_texture : option Image
}.

Record SprytileData : Type := mkData {
  world_pixels : Z;
  paint_normal_vector : Vec;
  paint_up_vector : Vec;
  cursor_flow : bool
}.

Record Scene : Type := mkScene {
  cursor_location : Vec;
  sprytile_data : SprytileData;
  sprytile_grids : list Grid
}.

(** A face loop: its vertex (a position in [verts]) and its UV. *)
Record Loop : Type := mkLoop { vert : nat; uv : R * R }.

Record Face : Type := mkFace { loops : list Loop; material_index : Z }.

(** The edit mesh.  The UV layer is the [uv] field every loop has, so
    [layers.uv.verify()] has nothing to create. *)
Record BMesh : Type := mkBMesh { verts : list Vec; faces : list Face }.

(** A hit of [BVHTree.ray_cast]; its four [None]s are [None : option Hit]. *)
Record Hit : Type := mkHit {
  hit_location : Vec;
  hit_normal : Vec;
  hit_face : nat;
  hit_distance : R
}.

(** A [BVHTree], seen through [ray_cast(origin, direction)]. *)
Definition BVHTree : Type := Vec -> Vec -> option Hit.

(** [context.object]. *)
Record Obj : Type := mkObj { matrix_world : Matrix; sprytile_gridid : nat }.

(** Everything a method of the tool can reach: the scene, the active
    object, [bpy.data.materials], and the tool's own fields.
    [FromBMesh] is [BVHTree.FromBMesh]. *)
Record World : Type := mkWorld {
  scene : Scene;
  object : Obj;
  materials : list string;
  FromBMesh : BMesh -> BVHTree;
  virtual_cursor : list Vec;
  bmesh : BMesh;
  tree : BVHTree
}.

Definition set_cursor_location (w : World) (p : Vec) : World :=
  let s := scene w in
  mkWorld (mkScene p (sprytile_data s) (sprytile_grids s))
          (object w) (materials w) (FromBMesh w) (virtual_cursor w) (bmesh w) (tree w).

Definition set_virtual_cursor (w : World) (vc : list Vec) : World :=
  mkWorld (scene w) (object w) (materials w) (FromBMesh w) vc (bmesh w) (tree w).

Definition set_bmesh (w : World) (m : BMesh) : World :=
  mkWorld (scene w) (object w) (materials w) (FromBMesh w) (virtual_cursor w) m (tree w).

Definition set_tree (w : World) (t : BVHTree) : World :=
  mkWorld (scene w) (object w) (materials w) (FromBMesh w) (virtual_cursor w) (bmesh w) t.

(** [l[i] = a] on a list, for an index in range. *)
Fixpoint list_set {A : Type} (l : list A) (i : nat) (a : A) : list A :=
  match l, i with
  | [], _ => []
  | _ :: t, O => a :: t
  | x :: t, S j => x :: list_set t j a
  end.

(** [vert.co] *)
Definition co (mesh : BMesh) (v : nat) : Vec := nth v (verts mesh) vzero.

(** [face.verts], in loop order. *)
Definition face_verts (f : Face) : list nat := map vert (loops f).

Definition vsum (l : list Vec) : Vec := fold_left vadd l vzero.

(** [face.calc_center_median()]: the mean of the face's vertices. *)
Definition calc_center_median (mesh : BMesh) (f : Face) : Vec :=
  vsum (map (co mesh) (face_verts f)) *v (/ INR (List.length (loops f))).

(** [bpy.data.materials.find(name)]: the position of the name, or -1. *)
Fixpoint find_from (i : Z) (l : list string) (name : string) : Z :=
  match l with
  | [] => (-1)%Z
  | x :: t => if String.eqb x name then i else find_from (i + 1)%Z t name
  end.

Definition materials_find (l : list string) (name : string) : Z := find_from 0%Z l name.

Fixpoint map_result {A B : Type} (f : A -> result B) (l : list A) : result (list B) :=
  match l with
  | [] => Ok []
  | a :: t => b <- f a ;; bs <- map_result f t ;; Ok (b :: bs)
  end.

Definition Translation (t : Vec) : Matrix :=
  mkMatrix (mkVec 1 0 0) (mkVec 0 1 0) (mkVec 0 0 1) t.

(** ** Current painting basis *)

Definition get_current_grid_vectors (s : Scene) : Vec * Vec * Vec :=
  let normal_vector := normalized (paint_normal_vector (sprytile_data s)) in
  let up_vector := normalized (paint_up_vector (sprytile_data s)) in
  let right_vector := cross up_vector normal_vector in
  (up_vector, right_vector, normal_vector).

(** ** UV projection *)

(** The body of the loop over [face.loops]: the new UV of one loop. *)
Definition project_loop (mesh : BMesh) (up_vector right_vector vert_origin : Vec)
    (world_convert : R * R) (uv_unit_x uv_unit_y : R) (uv_matrix : Matrix)
    (loop : Loop) : result Loop :=
  let vert_pos := co mesh (vert loop) -v vert_origin in
  let vert_xy := mkVec (dot right_vector vert_pos) (dot up_vector vert_pos) 0 in
  x <- py_div (vx vert_xy) (fst world_convert) ;;
  y <- py_div (vy vert_xy) (snd world_convert) ;;
  let vert_xy := mkVec x y 0 +v mkVec 0.5 0.5 0 in
  let vert_xy := mkVec (vx vert_xy * uv_unit_x) (vy vert_xy * uv_unit_y) (vz vert_xy) in
  let vert_xy := mat_apply uv_matrix vert_xy in
  Ok (mkLoop (vert loop) (vx vert_xy, vy vert_xy)).

(** [uv_unit_x] and [uv_unit_y] of [uv_map_face]: the size of one
    tile in UV space. *)
Definition uv_unit (target_grid : Grid) (target_img : Image) : result (R * R) :=
  pixel_uv_x <- py_div 1 (IZR (fst (size target_img))) ;;
  pixel_uv_y <- py_div 1 (IZR (snd (size target_img))) ;;
  let uv_unit_x := pixel_uv_x * IZR (fst (grid target_grid)) in
  let uv_unit_y := pixel_uv_y * IZR (snd (grid target_grid)) in
  Ok (uv_unit_x, uv_unit_y).

(** [uv_map_face], called with [mesh = self.bmesh].  The value is the
    world after the call and what the call returns: [None] for the two
    bare [return]s, the pair [(face.index, target_grid)] otherwise. *)
Definition uv_map_face (w : World) (up_vector right_vector : Vec) (tile_xy : Z * Z)
    (face_index : nat) : result (World * option (nat * Grid)) :=
  let data := sprytile_data (scene w) in
  let grid_id := sprytile_gridid (object w) in
  target_grid <- py_index (sprytile_grids (scene w)) grid_id ;;
  let mesh := bmesh w in
  let world_units := world_pixels data in
  wc_x <- py_div (IZR (fst (grid target_grid))) (IZR world_units) ;;
  wc_y <- py_div (IZR (snd (grid target_grid))) (IZR world_units) ;;
  let world_convert := (wc_x, wc_y) in
  if (List.length (faces mesh) <=? face_index)%nat then Ok (w, None)
  else
    match get_grid_texture target_grid with
    | None => Ok (w, None)
    | Some target_img =>
        ' (uv_unit_x, uv_unit_y) <- uv_unit target_grid target_img ;;
        let uv_matrix :=
          Translation (mkVec (uv_unit_x * IZR (fst tile_xy))
                             (uv_unit_y * IZR (snd tile_xy)) 0) in
        face <- py_index (faces mesh) face_index ;;
        let vert_origin := calc_center_median mesh face in
        new_loops <- map_result
          (project_loop mesh up_vector right_vector vert_origin world_convert
                        uv_unit_x uv_unit_y uv_matrix)
          (loops face) ;;
        let face' := mkFace new_loops (material_index face) in
        let mesh' := mkBMesh (verts mesh) (list_set (faces mesh) face_index face') in
        Ok (set_bmesh w mesh', Some (face_index, target_grid))
    end.

(** ** Virtual cursor *)

(** [deque.append] on a [deque([], 3)]: a fourth entry evicts the oldest. *)
Definition deque_append (d : list Vec) (x : Vec) : list Vec :=
  let d' := d ++ [x] in
  if (3 <? List.length d')%nat then tl d' else d'.

(** [Vector /= scalar] *)
Definition vdiv (a : Vec) (k : R) : Vec := mkVec (vx a / k) (vy a / k) (vz a / k).

Definition get_virtual_cursor_vector (w : World) : Vec :=
  let cursor_direction := vzero in
  let cursor_len := List.length (virtual_cursor w) in
  if (cursor_len <=? 1)%nat then cursor_direction
  else
    let cursor_direction :=
      fold_left
        (fun acc idx =>
           let segment :=
             nth (idx + 1) (virtual_cursor w) vzero -v nth idx (virtual_cursor w) vzero in
           acc +v segment)
        (seq 0 (cursor_len - 1)) cursor_direction in
    vdiv cursor_direction (INR cursor_len).

Definition add_virtual_cursor (w : World) (cursor_pos : Vec) : World :=
  let cursor_len := List.length (virtual_cursor w) in
  if (cursor_len =? 0)%nat
  then set_virtual_cursor w (deque_append (virtual_cursor w) cursor_pos)
  else
    let last_pos := nth (cursor_len - 1) (virtual_cursor w) vzero in
    let last_vector := cursor_pos -v last_pos in
    if Rlt_dec (magnitude last_vector) 0.1 then w
    else
      let cursor_vector := get_virtual_cursor_vector w in
      let w := if Rlt_dec (dot cursor_vector last_vector) 0
               then set_virtual_cursor w [] else w in
      set_virtual_cursor w (deque_append (virtual_cursor w) cursor_pos).

(** [enumerate] *)
Definition enumerate {A : Type} (l : list A) : list (Z * A) :=
  combine (map Z.of_nat (seq 0 (List.length l))) l.

(** One round of the loop of [flow_cursor] over [enumerate(face.verts)];
    the loop state is [(closest_idx, closest_pos)], and [max_dot] is the
    loop's constant bound. *)
Definition flow_step (w : World) (virtual_cursor_pos cursor_direction : Vec) (max_dot : R)
    (st : Z * Vec) (iv : Z * nat) : Z * Vec :=
  let vert_world_pos := mat_apply (matrix_world (object w)) (co (bmesh w) (snd iv)) in
  let vert_vector := normalized (vert_world_pos -v virtual_cursor_pos) in
  let vert_dot := Rabs (1 - dot vert_vector cursor_direction) in
  if Rlt_dec vert_dot max_dot then (fst iv, vert_world_pos) else st.

Definition flow_cursor (w : World) (face_index : nat) (virtual_cursor_pos : Vec)
    : result World :=
  let cursor_len := List.length (virtual_cursor w) in
  if (cursor_len <=? 1)%nat then Ok w
  else
    let cursor_direction := normalized (get_virtual_cursor_vector w) in
    face <- py_index (faces (bmesh w)) face_index ;;
    let max_dot := 1 in
    let '(closest_idx, closest_pos) :=
      fold_left (flow_step w virtual_cursor_pos cursor_direction max_dot)
                (enumerate (face_verts face)) ((-1)%Z, vzero) in
    if (closest_idx =? -1)%Z then Ok w
    else Ok (set_cursor_location w closest_pos).

(** ** Ray casts *)

Definition raycast_object (w : World) (ray_origin ray_direction : Vec)
    : result (option Hit) :=
  let matrix := matrix_world (object w) in
  matrix_inv <- inverted matrix ;;
  let ray_origin_obj := mat_apply matrix_inv ray_origin in
  let ray_target_obj := mat_apply matrix_inv (ray_origin +v ray_direction) in
  let ray_direction_obj := ray_target_obj -v ray_origin_obj in
  match tree w ray_origin_obj ray_direction_obj with
  | None => Ok None
  | Some h =>
      let location := mat_apply matrix (hit_location h) in
      Ok (Some (mkHit location (hit_normal h) (hit_face h) (hit_distance h)))
  end.

(** [raycast_grid]; its four [None]s are [None]. *)
Definition raycast_grid (s : Scene) (grid_id : nat)
    (up_vector right_vector plane_normal ray_origin ray_vector : Vec)
    : result (option (Vec * Vec * Vec * Vec)) :=
  match intersect_line_plane ray_origin (ray_origin +v ray_vector)
                             (cursor_location s) plane_normal with
  | None => Ok None
  | Some plane_pos =>
      let world_pixels := world_pixels (sprytile_data s) in
      target_grid <- py_index (sprytile_grids s) grid_id ;;
      let grid_x := fst (grid target_grid) in
      let grid_y := snd (grid target_grid) in
      ' (grid_position, x_vector, y_vector) <-
        get_grid_pos plane_pos (cursor_location s) right_vector up_vector
                     world_pixels grid_x grid_y ;;
      Ok (Some (grid_position, x_vector, y_vector, plane_pos))
  end.

(** ** Face synthesizer *)

(** [build_face].  [verts.new] appends a vertex, [faces.new] appends a
    face whose loops follow [face_order]; a new loop has UV (0, 0) and
    a new face material 0.  The value is the world after the call and
    [face.index]. *)
Definition build_face (w : World) (position x_vector y_vector up_vector right_vector : Vec)
    : result (World * nat) :=
  matrix_inv <- inverted (matrix_world (object w)) ;;
  let face_position := mat_apply matrix_inv position in
  let x_dot := dot right_vector (normalized x_vector) in
  let y_dot := dot up_vector (normalized y_vector) in
  let x_positive := if Rlt_dec 0 x_dot then true else false in
  let y_positive := if Rlt_dec 0 y_dot then true else false in
  let n := List.length (verts (bmesh w)) in
  let vtx1 := n in
  let vtx2 := S n in
  let vtx3 := S (S n) in
  let vtx4 := S (S (S n)) in
  let verts' :=
    verts (bmesh w) ++ [face_position;
                        face_position +v y_vector;
                        face_position +v x_vector +v y_vector;
                        face_position +v x_vector] in
  let face_order :=
    if Bool.eqb x_positive y_positive then [vtx1; vtx4; vtx3; vtx2]
    else [vtx1; vtx2; vtx3; vtx4] in
  let face := mkFace (map (fun v => mkLoop v (0, 0)) face_order) 0%Z in
  let index := List.length (faces (bmesh w)) in
  let mesh' := mkBMesh verts' (faces (bmesh w) ++ [face]) in
  let w := set_bmesh w mesh' in
  let w := set_tree w (FromBMesh w mesh') in
  Ok (w, index).

(** ** Paint / build orchestrator *)

Definition execute_paint (w : World) (ray_origin ray_vector : Vec) : result World :=
  let '(up_vector, right_vector, plane_normal) := get_current_grid_vectors (scene w) in
  hit <- raycast_object w ray_origin ray_vector ;;
  match hit with
  | None => Ok w
  | Some h =>
      let w := add_virtual_cursor w (hit_location h) in
      grid <- py_index (sprytile_grids (scene w)) (sprytile_gridid (object w)) ;;
      let tile_xy := tile_selection grid in
      ' (w, ret) <- uv_map_face w up_vector right_vector tile_xy (hit_face h) ;;
      match ret with
      | None => Raise TypeError          (* [face_index, grid = None] *)
      | Some (face_index, grid) =>
          let mat_id := materials_find (materials w) (mat_id grid) in
          if (-1 <? mat_id)%Z then
            face <- py_index (faces (bmesh w)) face_index ;;
            let face' := mkFace (loops face) mat_id in
            Ok (set_bmesh w (mkBMesh (verts (bmesh w))
                                     (list_set (faces (bmesh w)) face_index face')))
          else Ok w
      end
  end.

(** The test of [execute_build] on a mesh hit: [check_dot and check_coplanar]. *)
Definition paint_over_gate (plane_normal cursor : Vec) (h : Hit) : bool :=
  let check_dot := dot plane_normal (hit_normal h) in
  let check_dot := check_dot - 1 in
  let check_coplanar := distance_point_to_plane (hit_location h) cursor plane_normal in
  let check_coplanar := if Rlt_dec (Rabs check_coplanar) 0.05 then true else false in
  let check_dot := if Rlt_dec (Rabs check_dot) 0.05 then true else false in
  check_dot && check_coplanar.

(** The branch of [execute_build] that paints over the hit face. *)
Definition build_paint_over (w : World) (up_vector right_vector : Vec) (tile_xy : Z * Z)
    (h : Hit) : result World :=
  let w := add_virtual_cursor w (hit_location h) in
  ' (w, _) <- uv_map_face w up_vector right_vector tile_xy (hit_face h) ;;
  if cursor_flow (sprytile_data (scene w))
  then flow_cursor w (hit_face h) (hit_location h)
  else Ok w.

(** The rest of [execute_build]: a new face on the grid plane. *)
Definition build_new_face (w : World) (up_vector right_vector plane_normal : Vec)
    (tile_xy : Z * Z) (ray_origin ray_vector : Vec) : result World :=
  r <- raycast_grid (scene w) (sprytile_gridid (object w))
                    up_vector right_vector plane_normal ray_origin ray_vector ;;
  match r with
  | None => Ok w
  | Some (face_position, x_vector, y_vector, plane_cursor) =>
      let w := add_virtual_cursor w plane_cursor in
      ' (w, face_index) <-
        build_face w face_position x_vector y_vector up_vector right_vector ;;
      ' (w, _) <- uv_map_face w up_vector right_vector tile_xy face_index ;;
      if cursor_flow (sprytile_data (scene w))
      then flow_cursor w face_index plane_cursor
      else Ok w
  end.

Definition execute_build (w : World) (ray_origin ray_vector : Vec) : result World :=
  grid <- py_index (sprytile_grids (scene w)) (sprytile_gridid (object w)) ;;
  let tile_xy := tile_selection grid in
  let '(up_vector, right_vector, plane_normal) := get_current_grid_vectors (scene w) in
  hit <- raycast_object w ray_origin ray_vector ;;
  match hit with
  | Some h =>
      if paint_over_gate plane_normal (cursor_location (scene w)) h
      then build_paint_over w up_vector right_vector tile_xy h
      else build_new_face w up_vector right_vector plane_normal tile_xy ray_origin ray_vector
  | None =>
      build_new_face w up_vector right_vector plane_normal tile_xy ray_origin ray_vector
  end.

(** ** Vocabulary of the statements *)

Definition axis_x : Vec := mkVec 1 0 0.
Definition axis_y : Vec := mkVec 0 1 0.
Definition axis_z : Vec := mkVec 0 0 1.

(** How well a direction is aligned with an axis. *)
Definition alignment (v axis : Vec) : R := Rabs (dot (normalized v) axis).

Definition sign (c : R) : R :=
  if Rlt_dec 0 c then 1 else if Rlt_dec c 0 then -1 else 0.

(** The axis, pointing the way the input component [c] points, or the
    other way when mirrored. *)
Definition signed_axis (axis : Vec) (c : R) (mirrored : bool) : Vec :=
  axis *v (if mirrored then - sign c else sign c).

(** The spec's [directionVector()]: the consecutive-entry differences
    of the history, and their average. *)
Fixpoint consecutive_differences (history : list Vec) : list Vec :=
  match history with
  | a :: (b :: _) as rest => (b -v a) :: consecutive_differences rest
  | _ => []
  end.

Definition average_difference (history : list Vec) : Vec :=
  match consecutive_differences history with
  | [] => vzero
  | ds => vdiv (vsum ds) (INR (List.length ds))
  end.

(** ** Sample scenes *)

Definition no_hit : BVHTree := fun _ _ => None.

(** A tree whose every ray hits [h]. *)
Definition always_hit (h : Hit) : BVHTree := fun _ _ => Some h.

(** A 1x1-pixel grid showing tile (0, 0), with or without a texture. *)
Definition unit_grid (texture : option Image) : Grid :=
  mkGrid (1, 1)%Z (0, 0)%Z "tiles" texture.

(** A 32x32-pixel grid on a 256x256 texture, showing tile (2, 1). *)
Definition atlas_grid : Grid :=
  mkGrid (32, 32)%Z (2, 1)%Z "tiles" (Some (mkImage (256, 256)%Z)).

(** One grid at one pixel per world unit, painting plane normal +Z and
    up +Y, reference cursor at the world origin, object at the identity
    transform, no materials, cursor flow off. *)
Definition sample_world (g : Grid) (history : list Vec)
    (mesh : BMesh) (t : BVHTree) : World :=
  mkWorld
    (mkScene vzero (mkData 1 axis_z axis_y false) [g])
    (mkObj identity_matrix 0)
    []
    (fun _ => t)
    history mesh t.

Definition triangle (a b c : Vec) : BMesh :=
  mkBMesh [a; b; c] [mkFace [mkLoop 0 (0, 0); mkLoop 1 (0, 0); mkLoop 2 (0, 0)] 0%Z].

(** The score the spec gives a face vertex in the cursor-flow
    prediction: [|1 - dot(vertexVector, direction)|]. *)
Definition vertex_score (w : World) (cursor_world_pos : Vec) (v : nat) : R :=
  let direction := normalized (get_virtual_cursor_vector w) in
  let vertex_vector :=
    normalized (mat_apply (matrix_world (object w)) (co (bmesh w) v) -v cursor_world_pos) in
  Rabs (1 - dot vertex_vector direction).

(** ** The rest of the modal tool *)

(** [scene.sprytile_data.normal_mode] *)
Inductive NormalMode : Type := ModeX | ModeY | ModeZ.

(** [scene.sprytile_data.paint_mode]: the two values the tool acts on,
    and any other value. *)
Inductive PaintMode : Type := PAINT | MAKE_FACE | OtherPaintMode.

(** [scene.sprytile_data.cursor_snap]: likewise. *)
Inductive SnapMode : Type := GRID | VERTEX | OtherSnapMode.

(** What the operator can reach besides the [World]: the remaining
    fields of [scene.sprytile_data], and whether [self.tree] is [None]
    (then the [tree] of the world is not read). *)
Record Session : Type := mkSession {
  world : World;
  tree_released : bool;
  gui_use_mouse : bool;
  lock_normal : bool;
  normal_mode : NormalMode;
  paint_mode : PaintMode;
  cursor_snap_mode : SnapMode
}.

Definition set_world (s : Session) (w : World) : Session :=
  mkSession w (tree_released s) (gui_use_mouse s) (lock_normal s)
            (normal_mode s) (paint_mode s) (cursor_snap_mode s).

Definition set_normal_mode (s : Session) (m : NormalMode) : Session :=
  mkSession (world s) (tree_released s) (gui_use_mouse s)
            (lock_normal s) m (paint_mode s) (cursor_snap_mode s).

(** [scene.sprytile_data.paint_normal_vector = n] and
    [scene.sprytile_data.paint_up_vector = u]. *)
Definition set_paint_vectors (w : World) (n u : Vec) : World :=
  let s := scene w in
  let d := sprytile_data s in
  mkWorld (mkScene (cursor_location s)
                   (mkData (world_pixels d) n u (cursor_flow d))
                   (sprytile_grids s))
          (object w) (materials w) (FromBMesh w) (virtual_cursor w) (bmesh w) (tree w).

Definition NormalMode_eqb (a b : NormalMode) : bool :=
  match a, b with
  | ModeX, ModeX | ModeY, ModeY | ModeZ, ModeZ => true
  | _, _ => false
  end.

(** [find_view_axis].  [view_vector] is what
    [region_2d_to_vector_3d] gives for the centre of the region and
    [view_up_vector] is [rv3d.view_rotation * Vector((0, 1, 0))]. *)
Definition find_view_axis (s : Session) (view_vector view_up_vector : Vec) : Session :=
  if lock_normal s then s
  else
    let plane_normal := snap_vector_to_axis view_vector true in
    let up_vector := snap_vector_to_axis view_up_vector false in
    if Req_dec_T (dot plane_normal up_vector) 0 then
      let w := set_paint_vectors (world s) plane_normal up_vector in
      let new_mode :=
        if Rlt_dec 0 (Rabs (vx plane_normal)) then ModeX
        else if Rlt_dec 0 (Rabs (vy plane_normal)) then ModeY
        else ModeZ in
      let w := if NormalMode_eqb new_mode (normal_mode s) then w
               else set_virtual_cursor w [] in
      set_normal_mode (set_world s w) new_mode
    else s.

(** [execute_tool].  The ray is what [region_2d_to_vector_3d] and
    [region_2d_to_origin_3d] give for the mouse position. *)
Definition execute_tool (s : Session) (ray_origin ray_vector : Vec) : result Session :=
  if tree_released s || gui_use_mouse s then Ok s
  else
    match paint_mode s with
    | PAINT =>
        w <- execute_paint (world s) ray_origin ray_vector ;;
        Ok (set_world s w)
    | MAKE_FACE =>
        w <- execute_build (world s) ray_origin ray_vector ;;
        Ok (set_world s w)
    | OtherPaintMode => Ok s
    end.

(** One round of the vertex loop of [cursor_snap]; the loop state is
    [(closest_vtx, closest_dist)], with [None] for [float('inf')]. *)
Definition nearest_step (mesh : BMesh) (location : Vec)
    (st : Z * option R) (iv : Z * nat) : Z * option R :=
  let test_dist := magnitude (location -v co mesh (snd iv)) in
  match snd st with
  | None => (fst iv, Some test_dist)
  | Some closest_dist =>
      if Rlt_dec test_dist closest_dist then (fst iv, Some test_dist) else st
  end.

(** [cursor_snap], with the same ray as [execute_tool]; [find_nearest]
    is [self.tree.find_nearest] as it is at the call. *)
Definition cursor_snap (s : Session) (find_nearest : Vec -> option Hit)
    (ray_origin ray_vector : Vec) : result Session :=
  if tree_released s || gui_use_mouse s then Ok s
  else
    let w := world s in
    let '(up_vector, right_vector, plane_normal) := get_current_grid_vectors (scene w) in
    match cursor_snap_mode s with
    | GRID =>
        match intersect_line_plane ray_origin (ray_origin +v ray_vector)
                                   (cursor_location (scene w)) plane_normal with
        | None => Ok s
        | Some location =>
            let world_pixels := world_pixels (sprytile_data (scene w)) in
            target_grid <- py_index (sprytile_grids (scene w))
                                    (sprytile_gridid (object w)) ;;
            let grid_x := fst (grid target_grid) in
            let grid_y := snd (grid target_grid) in
            ' (grid_position, x_vector, y_vector) <-
              get_grid_pos location (cursor_location (scene w))
                           right_vector up_vector world_pixels grid_x grid_y ;;
            Ok (set_world s (set_cursor_location w grid_position))
        end
    | VERTEX =>
        hit <- raycast_object w ray_origin ray_vector ;;
        match hit with
        | None => Ok s
        | Some h =>
            let matrix := matrix_world (object w) in
            matrix_inv <- inverted matrix ;;
            match find_nearest (mat_apply matrix_inv (hit_location h)) with
            | None => Ok s
            | Some near =>
                face <- py_index (faces (bmesh w)) (hit_face near) ;;
                let '(closest_vtx, _) :=
                  fold_left (nearest_step (bmesh w) (hit_location near))
                            (enumerate (face_verts face)) ((-1)%Z, None) in
                if (closest_vtx =? -1)%Z then Ok s
                else
                  vtx <- py_index (face_verts face) (Z.to_nat closest_vtx) ;;
                  Ok (set_world s
                        (set_cursor_location w (mat_apply matrix (co (bmesh w) vtx))))
            end
        end
    | OtherSnapMode => Ok s
    end.

(** ** Vocabulary of the further statements *)

(** The six values the axis snapper can return. *)
Definition signed_axes : list Vec :=
  [axis_x; axis_x *v (-1); axis_y; axis_y *v (-1); axis_z; axis_z *v (-1)].

(** The axis a painting plane normal names. *)
Definition mode_of_normal (n : Vec) : NormalMode :=
  if Req_dec_T (vx n) 0 then (if Req_dec_T (vy n) 0 then ModeZ else ModeY) else ModeX.

(** [a] is a prefix of [b]. *)
Definition is_prefix {A : Type} (a b : list A) : Prop := exists rest, b = a ++ rest.

(** A session with the sample world, tree alive, nothing locked. *)
Definition sample_session (w : World) (pm : PaintMode) (sm : SnapMode) : Session :=
  mkSession w false false false ModeZ pm sm.

(** No two neighbours of the history are closer than the motion
    threshold 0.1. *)
Definition well_spaced (history : list Vec) : Prop :=
  Forall (fun d => ~ magnitude d < 0.1) (consecutive_differences history).

(** Three unit vectors, perpendicular to one another. *)
Definition orthonormal (up_vector right_vector normal_vector : Vec) : Prop :=
  dot up_vector up_vector = 1 /\
  dot right_vector right_vector = 1 /\
  dot normal_vector normal_vector = 1 /\
  dot right_vector up_vector = 0 /\
  dot right_vector normal_vector = 0 /\
  dot up_vector normal_vector = 0.

(** The stored painting normal and up are signed world axes at a
    right angle. *)
Definition perpendicular_axes (d : SprytileData) : Prop :=
  In (paint_normal_vector d) signed_axes /\
  In (paint_up_vector d) signed_axes /\
  dot (paint_normal_vector d) (paint_up_vector d) = 0.

(** One call of one of the three operations the modal handler runs on
    a session: [find_view_axis] on a timer tick, [execute_tool] with
    the button down, [cursor_snap] with the snap key down. *)
Inductive tool_step : Session -> Session -> Prop :=
| step_view_axis (s : Session) (view_vector view_up_vector : Vec) :
    tool_step s (find_view_axis s view_vector view_up_vector)
| step_execute_tool (s s' : Session) (ray_origin ray_vector : Vec) :
    execute_tool s ray_origin ray_vector = Ok s' -> tool_step s s'
| step_cursor_snap (s s' : Session) (find_nearest : Vec -> option Hit)
    (ray_origin ray_vector : Vec) :
    cursor_snap s find_nearest ray_origin ray_vector = Ok s' -> tool_step s s'.

(** Any number of such calls. *)
Inductive tool_run : Session -> Session -> Prop :=
| run_done (s : Session) : tool_run s s
| run_step (s s' s'' : Session) : tool_step s s' -> tool_run s' s'' -> tool_run s s''.

(** What the tool keeps true of its history and its painting basis. *)
Definition session_invariant (s : Session) : Prop :=
  (List.length (virtual_cursor (world s)) <= 3)%nat /\
  well_spaced (virtual_cursor (world s)) /\
  perpendicular_axes (sprytile_data (scene (world s))).

(** The second mesh has the vertices and faces of the first, in place,
    and possibly more after them. *)
Definition geometry_kept (m m' : BMesh) : Prop :=
  is_prefix (verts m) (verts m') /\
  is_prefix (map face_verts (faces m)) (map face_verts (faces m')).

(** What a paint or build call can have done to the history. *)
Definition history_step (w w' : World) : Prop :=
  virtual_cursor w' = virtual_cursor w \/
  exists p : Vec, virtual_cursor w' = virtual_cursor (add_virtual_cursor w p).

(** Where the [k]-th vertex of a new quad sits in its cell, as
    multiples of the right edge and the up edge: P1, P2, P3, P4. *)
Definition quad_corner (k : nat) : R * R :=
  match k with
  | 0%nat => (0, 0)
  | 1%nat => (0, 1)
  | 2%nat => (1, 1)
  | _ => (1, 0)
  end.

(** The sample world with the object under the transform [m] and the
    materials [mats]. *)
Definition placed_world (m : Matrix) (mats : list string) (g : Grid)
    (history : list Vec) (mesh : BMesh) (t : BVHTree) : World :=
  mkWorld
    (mkScene vzero (mkData 1 axis_z axis_y false) [g])
    (mkObj m 0)
    mats
    (fun _ => t)
    history mesh t.

(** Two triangles sharing an edge. *)
Definition two_triangles : BMesh :=
  mkBMesh [vzero; mkVec 1 0 0; mkVec (-1) 0 0; mkVec 0 1 0]
          [mkFace [mkLoop 0 (0, 0); mkLoop 1 (0, 0); mkLoop 2 (0, 0)] 0%Z;
           mkFace [mkLoop 1 (0, 0); mkLoop 3 (0, 0); mkLoop 2 (0, 0)] 0%Z].
(** * Proofs *)

Lemma if_Rlt_true (A : Type) (a b : R) (x y : A) :
  a < b -> (if Rlt_dec a b then x else y) = x.
Proof. intros H. destruct (Rlt_dec a b); [reflexivity | contradiction]. Qed.

Lemma if_Rlt_false (A : Type) (a b : R) (x y : A) :
  ~ a < b -> (if Rlt_dec a b then x else y) = y.
Proof. intros H. destruct (Rlt_dec a b); [contradiction | reflexivity]. Qed.

Lemma if_Req_true (A : Type) (a b : R) (x y : A) :
  a = b -> (if Req_dec_T a b then x else y) = x.
Proof. intros H. destruct (Req_dec_T a b); [reflexivity | contradiction]. Qed.

Lemma if_Req_false (A : Type) (a b : R) (x y : A) :
  a <> b -> (if Req_dec_T a b then x else y) = y.
Proof. intros H. destruct (Req_dec_T a b); [contradiction | reflexivity]. Qed.

Lemma py_div_ok (a b : R) : b <> 0 -> py_div a b = Ok (a / b).
Proof. intros H. unfold py_div. now rewrite if_Req_false. Qed.

Lemma floor_IZR (z : Z) : floor (IZR z) = z.
Proof.
  unfold floor. symmetry. apply Int_part_spec. lra.
Qed.

Lemma floor_between (r : R) (z : Z) : IZR z <= r < IZR z + 1 -> floor r = z.
Proof.
  intros H. unfold floor. symmetry. apply Int_part_spec. lra.
Qed.

Lemma vec_eq (a b : Vec) : vx a = vx b -> vy a = vy b -> vz a = vz b -> a = b.
Proof. destruct a, b; simpl; intros; subst; reflexivity. Qed.

Lemma dot_self_nonneg (a : Vec) : 0 <= dot a a.
Proof. unfold dot. nra. Qed.

Lemma magnitude_nonneg (a : Vec) : 0 <= magnitude a.
Proof. apply sqrt_pos. Qed.

Lemma magnitude_eq (a : Vec) (m : R) : 0 <= m -> m * m = dot a a -> magnitude a = m.
Proof.
  intros Hm H. unfold magnitude. apply sqrt_lem_1; auto using dot_self_nonneg.
Qed.

Lemma magnitude_zero (a : Vec) : magnitude a = 0 -> a = vzero.
Proof.
  intros H. apply sqrt_eq_0 in H; [| apply dot_self_nonneg].
  unfold dot in H. apply vec_eq; simpl; nra.
Qed.

Lemma normalized_scale (a : Vec) :
  exists k, 0 <= k /\ normalized a = a *v k /\ (a <> vzero -> 0 < k).
Proof.
  unfold normalized. destruct (Req_dec_T (magnitude a) 0) as [H | H].
  - exists 0. split; [lra |]. split.
    + apply magnitude_zero in H. subst. apply vec_eq; simpl; lra.
    + intros Hn. apply magnitude_zero in H. contradiction.
  - pose proof (magnitude_nonneg a).
    assert (0 < / magnitude a) by (apply Rinv_0_lt_compat; lra).
    exists (/ magnitude a). repeat split; auto; lra.
Qed.

(** ** Axis snapper *)

Lemma normalized_nonzero (v : Vec) :
  v <> vzero -> exists k, 0 < k /\ normalized v = v *v k.
Proof.
  intros Hv. destruct (normalized_scale v) as (k & _ & Hk & Hpos).
  exists k. auto.
Qed.

Lemma min_index3 (a b c : R) :
  min_index [a; b; c] =
  if Rlt_dec b a then (if Rlt_dec c b then 2 else 1)%nat
  else (if Rlt_dec c a then 2 else 0)%nat.
Proof. reflexivity. Qed.

Lemma sign_scale (c k : R) : 0 < k ->
  (c * k < 0 <-> c < 0) /\ (0 < c * k <-> 0 < c).
Proof. intros Hk. split; split; intros H; nra. Qed.

Lemma snap_cases (mirrored : bool) (e : Vec) (c d : R) (snapped := e) :
  (d < 0 <-> c < 0) -> (0 < d <-> 0 < c) -> c <> 0 ->
  (if negb mirrored && (if Rlt_dec d 0 then true else false)
   then snapped *v (-1)
   else if mirrored && (if Rlt_dec 0 d then true else false)
        then snapped *v (-1) else snapped)
  = signed_axis e c mirrored.
Proof.
  intros Hneg Hpos Hc. unfold signed_axis, sign, snapped.
  destruct mirrored; simpl;
    destruct (Rlt_dec d 0), (Rlt_dec 0 d), (Rlt_dec 0 c), (Rlt_dec c 0);
    simpl; try (exfalso; tauto); try (exfalso; lra);
    apply vec_eq; destruct e; simpl; lra.
Qed.

(** The zero vector has no direction: all three alignments tie at 0
    and the snapper answers +X, mirrored or not. *)
Lemma snap_vector_to_axis_zero (mirrored : bool) :
  snap_vector_to_axis vzero mirrored = axis_x.
Proof.
  assert (N : normalized vzero = vzero).
  { unfold normalized. rewrite if_Req_true; [reflexivity |].
    unfold magnitude. replace (dot vzero vzero) with 0 by (unfold dot; simpl; ring).
    apply sqrt_0. }
  unfold snap_vector_to_axis. rewrite N, min_index3.
  replace (dot vzero (mkVec 1 0 0)) with 0 by (unfold dot; simpl; ring).
  replace (dot vzero (mkVec 0 1 0)) with 0 by (unfold dot; simpl; ring).
  replace (dot vzero (mkVec 0 0 1)) with 0 by (unfold dot; simpl; ring).
  rewrite !(if_Rlt_false _ (1 - Rabs 0) (1 - Rabs 0)) by lra.
  cbn [Nat.eqb].
  replace (dot vzero (mkVec 1 0 0)) with 0 by (unfold dot; simpl; ring).
  rewrite !(if_Rlt_false _ 0 0) by lra.
  destruct mirrored; reflexivity.
Qed.

(** C5: the snapper returns the axis of maximal alignment, X before Y
    before Z on a tie, signed as the input along that axis when not
    mirrored and the other way when mirrored. *)
Theorem snap_vector_to_axis_nearest (v : Vec) (mirrored : bool) :
  v <> vzero ->
  (alignment v axis_y <= alignment v axis_x ->
   alignment v axis_z <= alignment v axis_x ->
   vx v <> 0 /\ snap_vector_to_axis v mirrored = signed_axis axis_x (vx v) mirrored)
  /\ (alignment v axis_x < alignment v axis_y ->
      alignment v axis_z <= alignment v axis_y ->
      vy v <> 0 /\ snap_vector_to_axis v mirrored = signed_axis axis_y (vy v) mirrored)
  /\ (alignment v axis_x < alignment v axis_z ->
      alignment v axis_y < alignment v axis_z ->
      vz v <> 0 /\ snap_vector_to_axis v mirrored = signed_axis axis_z (vz v) mirrored).
Proof.
  intros Hv. destruct (normalized_nonzero v Hv) as (k & Hk & Hn).
  unfold alignment, snap_vector_to_axis. rewrite Hn, min_index3.
  assert (Hx : dot (v *v k) (mkVec 1 0 0) = vx v * k) by (unfold dot; simpl; ring).
  assert (Hy : dot (v *v k) (mkVec 0 1 0) = vy v * k) by (unfold dot; simpl; ring).
  assert (Hz : dot (v *v k) (mkVec 0 0 1) = vz v * k) by (unfold dot; simpl; ring).
  unfold axis_x, axis_y, axis_z. rewrite Hx, Hy, Hz.
  assert (Hnz : ~ (vx v = 0 /\ vy v = 0 /\ vz v = 0)).
  { intros (H1 & H2 & H3). apply Hv. apply vec_eq; simpl; auto. }
  assert (Ax : Rabs (vx v * k) = Rabs (vx v) * k)
    by (rewrite Rabs_mult, (Rabs_right k); lra).
  assert (Ay : Rabs (vy v * k) = Rabs (vy v) * k)
    by (rewrite Rabs_mult, (Rabs_right k); lra).
  assert (Az : Rabs (vz v * k) = Rabs (vz v) * k)
    by (rewrite Rabs_mult, (Rabs_right k); lra).
  rewrite Ax, Ay, Az.
  pose proof (Rabs_pos (vx v)) as Px. pose proof (Rabs_pos (vy v)) as Py.
  pose proof (Rabs_pos (vz v)) as Pz.
  assert (Zx : vx v = 0 -> Rabs (vx v) = 0) by (intros ->; apply Rabs_R0).
  assert (Zy : vy v = 0 -> Rabs (vy v) = 0) by (intros ->; apply Rabs_R0).
  assert (Zz : vz v = 0 -> Rabs (vz v) = 0) by (intros ->; apply Rabs_R0).
  assert (Nx : Rabs (vx v) = 0 -> vx v = 0)
    by (intros H; destruct (Req_dec_T (vx v) 0) as [|E]; auto; apply Rabs_no_R0 in E; lra).
  assert (Ny : Rabs (vy v) = 0 -> vy v = 0)
    by (intros H; destruct (Req_dec_T (vy v) 0) as [|E]; auto; apply Rabs_no_R0 in E; lra).
  assert (Nz : Rabs (vz v) = 0 -> vz v = 0)
    by (intros H; destruct (Req_dec_T (vz v) 0) as [|E]; auto; apply Rabs_no_R0 in E; lra).
  destruct (sign_scale (vx v) k Hk) as [Sx1 Sx2].
  destruct (sign_scale (vy v) k Hk) as [Sy1 Sy2].
  destruct (sign_scale (vz v) k Hk) as [Sz1 Sz2].
  split; [| split].
  - intros H1 H2.
    assert (Hc : vx v <> 0).
    { intros E. apply Hnz. rewrite (Zx E) in *. split; auto. split; [apply Ny | apply Nz]; nra. }
    split; auto.
    rewrite (if_Rlt_false _ (1 - Rabs (vy v) * k)) by lra.
    rewrite (if_Rlt_false _ (1 - Rabs (vz v) * k)) by lra.
    simpl Nat.eqb. cbv iota. rewrite Hx. now apply snap_cases.
  - intros H1 H2.
    assert (Hc : vy v <> 0).
    { intros E. rewrite (Zy E) in *. nra. }
    split; auto.
    rewrite (if_Rlt_true _ (1 - Rabs (vy v) * k)) by lra.
    rewrite (if_Rlt_false _ (1 - Rabs (vz v) * k)) by lra.
    simpl Nat.eqb. cbv iota. rewrite Hy. now apply snap_cases.
  - intros H1 H2.
    assert (Hc : vz v <> 0).
    { intros E. rewrite (Zz E) in *. nra. }
    split; auto.
    destruct (Rlt_dec (1 - Rabs (vy v) * k) (1 - Rabs (vx v) * k)).
    + rewrite (if_Rlt_true _ (1 - Rabs (vz v) * k)) by lra.
      simpl Nat.eqb. cbv iota. rewrite Hz. now apply snap_cases.
    + rewrite (if_Rlt_true _ (1 - Rabs (vz v) * k)) by lra.
      simpl Nat.eqb. cbv iota. rewrite Hz. now apply snap_cases.
Qed.

Lemma snap_vector_to_axis_nearest_witness :
  snap_vector_to_axis (mkVec 1 1 0) false = mkVec 1 0 0 /\
  snap_vector_to_axis (mkVec 1 1 0) true = mkVec (-1) 0 0.
Proof.
  assert (Hv : mkVec 1 1 0 <> vzero) by (intros H; injection H; lra).
  assert (Hy : alignment (mkVec 1 1 0) axis_y <= alignment (mkVec 1 1 0) axis_x).
  { unfold alignment. destruct (normalized_nonzero _ Hv) as (k & Hk & ->).
    apply Req_le. f_equal. unfold dot, axis_x, axis_y. simpl. ring. }
  assert (Hz : alignment (mkVec 1 1 0) axis_z <= alignment (mkVec 1 1 0) axis_x).
  { unfold alignment. destruct (normalized_nonzero _ Hv) as (k & Hk & ->).
    replace (dot (mkVec 1 1 0 *v k) axis_z) with 0
      by (unfold dot, axis_z; simpl; ring).
    rewrite Rabs_R0. apply Rabs_pos. }
  assert (Hs : sign 1 = 1) by (unfold sign; now rewrite if_Rlt_true by lra).
  split.
  - rewrite (proj2 (proj1 (snap_vector_to_axis_nearest (mkVec 1 1 0) false Hv) Hy Hz)).
    unfold signed_axis. cbn [vx]. rewrite Hs.
    apply vec_eq; unfold axis_x; simpl; lra.
  - rewrite (proj2 (proj1 (snap_vector_to_axis_nearest (mkVec 1 1 0) true Hv) Hy Hz)).
    unfold signed_axis. cbn [vx]. rewrite Hs.
    apply vec_eq; unfold axis_x; simpl; lra.
Defined.

(** ** Grid math *)

Lemma dot_neg_l (a e : Vec) : dot (a *v (-1)) e = - dot a e.
Proof. unfold dot; simpl; ring. Qed.

Lemma dot_neg_r (a e : Vec) : dot a (e *v (-1)) = - dot a e.
Proof. unfold dot; simpl; ring. Qed.

Lemma dot_comm (a b : Vec) : dot a b = dot b a.
Proof. unfold dot; ring. Qed.

Lemma dot_normalized_neg (a p : Vec) : dot a p < 0 -> dot a (normalized p) < 0.
Proof.
  intros H. assert (Hp : p <> vzero).
  { intros ->. unfold dot in H; simpl in H; lra. }
  destruct (normalized_nonzero p Hp) as (k & Hk & ->).
  replace (dot a (p *v k)) with (k * dot a p) by (unfold dot; simpl; ring). nra.
Qed.

Lemma dot_normalized_nonneg (a p : Vec) : 0 <= dot a p -> ~ dot a (normalized p) < 0.
Proof.
  intros H. destruct (normalized_scale p) as (k & Hk & -> & _).
  replace (dot a (p *v k)) with (k * dot a p) by (unfold dot; simpl; ring). nra.
Qed.

Section GridFrame.

Variables grid_center right_vector up_vector : Vec.
Variables world_pixels grid_x grid_y : Z.

Hypothesis world_pixels_positive : (0 < world_pixels)%Z.
Hypothesis grid_x_positive : (0 < grid_x)%Z.
Hypothesis grid_y_positive : (0 < grid_y)%Z.




End GridFrame.

Ltac rcalc := unfold dot, vadd, vsub, vscale, vzero, axis_x, axis_y, axis_z; simpl; lra.
Ltac vcalc := apply vec_eq; rcalc.

Lemma ok3_eq (a a' b b' c c' : Vec) :
  a = a' -> b = b' -> c = c' -> Ok (a, b, c) = Ok (a', b', c').
Proof. intros; subst; reflexivity. Qed.



(** C3 at the sample (1, 0, 0) of the unit grid centred at (2, 0, 0):
    the vector from the grid origin to the sample is (-1, 0, 0), the
    code tests the sign against the normalized sample itself and leaves
    right as (1, 0, 0), whose dot product with the normalized
    origin-to-sample vector is negative. *)
Theorem get_grid_pos_resign_uses_absolute_position :
  get_grid_pos (mkVec 1 0 0) (mkVec 2 0 0) axis_x axis_y 1 1 1
    = Ok (mkVec 1 0 0, mkVec 1 0 0, mkVec 0 1 0) /\
  dot (mkVec 1 0 0) (normalized (mkVec 1 0 0 -v mkVec 2 0 0)) < 0.
Proof.
  split.
  - unfold get_grid_pos.
    rewrite (if_Rlt_false _ (dot axis_x _)) by (apply dot_normalized_nonneg; rcalc).
    rewrite (if_Rlt_false _ (dot axis_y _)) by (apply dot_normalized_nonneg; rcalc).
    rewrite !(py_div_ok _ 1) by lra. simpl bind.
    rewrite !py_div_ok by lra. simpl bind.
    rewrite (floor_between _ (-1)) by rcalc.
    rewrite (floor_between _ 0) by rcalc.
    apply ok3_eq; vcalc.
  - apply dot_normalized_neg. rcalc.
Qed.

(** ** Virtual cursor *)

Lemma normalized_value (v : Vec) (m : R) :
  0 < m -> m * m = dot v v -> normalized v = v *v (/ m).
Proof.
  intros Hm H. unfold normalized.
  rewrite (magnitude_eq v m) by lra. now rewrite if_Req_false by lra.
Qed.

Lemma fold_segments_shift (a : Vec) (t : list Vec) (n k : nat) (acc : Vec) :
  fold_left (fun acc idx =>
               acc +v (nth (idx + 1) (a :: t) vzero -v nth idx (a :: t) vzero))
            (seq (S k) n) acc
  = fold_left (fun acc idx => acc +v (nth (idx + 1) t vzero -v nth idx t vzero))
              (seq k n) acc.
Proof.
  revert k acc. induction n as [| n IH]; intros k acc; [reflexivity |].
  cbn [seq fold_left]. rewrite IH. reflexivity.
Qed.

Lemma fold_segments (l : list Vec) (acc : Vec) :
  fold_left (fun acc idx => acc +v (nth (idx + 1) l vzero -v nth idx l vzero))
            (seq 0 (List.length l - 1)) acc
  = fold_left vadd (consecutive_differences l) acc.
Proof.
  revert acc. induction l as [| a t IH]; intros acc; [reflexivity |].
  destruct t as [| b t']; [reflexivity |].
  replace (List.length (a :: b :: t') - 1)%nat with (S (List.length (b :: t') - 1))
    by (simpl; lia).
  cbn [seq fold_left consecutive_differences].
  rewrite fold_segments_shift, IH. reflexivity.
Qed.

(** What the direction query computes on every history: zero below
    two entries, and otherwise the sum of the consecutive differences
    divided by the number of entries. *)
Lemma get_virtual_cursor_vector_value (w : World) :
  get_virtual_cursor_vector w =
  if (List.length (virtual_cursor w) <=? 1)%nat then vzero
  else vdiv (vsum (consecutive_differences (virtual_cursor w)))
            (INR (List.length (virtual_cursor w))).
Proof.
  unfold get_virtual_cursor_vector.
  destruct (List.length (virtual_cursor w) <=? 1)%nat; [reflexivity |].
  now rewrite fold_segments.
Qed.

(** C6 on the history [(0,0,0); (2,0,0)]: the only difference is
    (2, 0, 0), its average is (2, 0, 0), and the code returns
    (1, 0, 0), the sum of the differences divided by the number of
    entries. *)
Theorem get_virtual_cursor_vector_divides_by_entries :
  let w := sample_world (unit_grid None) [vzero; mkVec 2 0 0] (mkBMesh [] []) no_hit in
  get_virtual_cursor_vector w = mkVec 1 0 0 /\
  average_difference (virtual_cursor w) = mkVec 2 0 0 /\
  get_virtual_cursor_vector w <> average_difference (virtual_cursor w).
Proof.
  assert (E1 : get_virtual_cursor_vector
                 (sample_world (unit_grid None) [vzero; mkVec 2 0 0] (mkBMesh [] []) no_hit)
               = mkVec 1 0 0).
  { unfold get_virtual_cursor_vector. simpl. unfold vdiv. vcalc. }
  assert (E2 : average_difference [vzero; mkVec 2 0 0] = mkVec 2 0 0).
  { unfold average_difference, vsum, vdiv. simpl. vcalc. }
  cbv zeta. split; [exact E1 |]. split; [exact E2 |].
  rewrite E1. simpl virtual_cursor. rewrite E2.
  intros H. injection H as H. lra.
Qed.

Ltac wcalc :=
  unfold mat_apply, co, vdiv, vsum; simpl;
  try apply vec_eq;
  unfold dot, vadd, vsub, vscale, vzero, axis_x, axis_y, axis_z; simpl;
  lra.

Lemma flow_step_value (w : World) (cur dir : Vec) (st : Z * Vec) (i : Z) (v : nat)
    (m s : R) :
  let pos := mat_apply (matrix_world (object w)) (co (bmesh w) v) in
  0 < m -> m * m = dot (pos -v cur) (pos -v cur) ->
  Rabs (1 - dot ((pos -v cur) *v (/ m)) dir) = s ->
  flow_step w cur dir 1 st (i, v) = if Rlt_dec s 1 then (i, pos) else st.
Proof.
  intros pos Hm Hmm Hs. unfold flow_step. cbn [fst snd]. fold pos.
  rewrite (normalized_value _ m Hm Hmm), Hs. reflexivity.
Qed.

Lemma Rabs_value (x y : R) : (0 <= y /\ (x = y \/ x = - y)) -> Rabs x = y.
Proof.
  intros [Hy [-> | ->]]; [apply Rabs_right; lra |].
  rewrite Rabs_Ropp. apply Rabs_right; lra.
Qed.

(** C4 on a triangle (2,0,0), (3,4,0), (4,3,0) seen from the origin
    with travel direction +X: the first vertex has the minimum score
    0, yet the cursor moves to the last vertex, whose score is 0.2. *)
Theorem flow_cursor_takes_last_vertex_below_one :
  let mesh := triangle (mkVec 2 0 0) (mkVec 3 4 0) (mkVec 4 3 0) in
  let w := sample_world (unit_grid None) [vzero; mkVec 1 0 0] mesh no_hit in
  flow_cursor w 0 vzero = Ok (set_cursor_location w (mkVec 4 3 0)) /\
  vertex_score w vzero 0 = 0 /\
  vertex_score w vzero 1 = 0.4 /\
  vertex_score w vzero 2 = 0.2.
Proof.
  cbv zeta.
  set (mesh := triangle (mkVec 2 0 0) (mkVec 3 4 0) (mkVec 4 3 0)).
  set (w := sample_world (unit_grid None) [vzero; mkVec 1 0 0] mesh no_hit).
  assert (D : normalized (get_virtual_cursor_vector w) = mkVec 1 0 0).
  { rewrite get_virtual_cursor_vector_value. simpl.
    rewrite (normalized_value _ 0.5); [vcalc | lra |].
    unfold vsum, vdiv. simpl. rcalc. }
  assert (S0 : vertex_score w vzero 0 = 0).
  { unfold vertex_score. rewrite D. rewrite (normalized_value _ 2); [| lra | wcalc].
    apply Rabs_value. wcalc. }
  assert (S1 : vertex_score w vzero 1 = 0.4).
  { unfold vertex_score. rewrite D. rewrite (normalized_value _ 5); [| lra | wcalc].
    apply Rabs_value. wcalc. }
  assert (S2 : vertex_score w vzero 2 = 0.2).
  { unfold vertex_score. rewrite D. rewrite (normalized_value _ 5); [| lra | wcalc].
    apply Rabs_value. wcalc. }
  split; [| auto].
  unfold flow_cursor. rewrite D.
  change (List.length (virtual_cursor w) <=? 1)%nat with false. cbv iota.
  change (py_index (faces (bmesh w)) 0)
    with (Ok (mkFace [mkLoop 0 (0, 0); mkLoop 1 (0, 0); mkLoop 2 (0, 0)] 0%Z)).
  cbn [bind].
  change (enumerate (face_verts _)) with [(0%Z, 0%nat); (1%Z, 1%nat); (2%Z, 2%nat)].
  cbn [fold_left].
  rewrite (flow_step_value w vzero _ _ 0 0 2 0); [| lra | wcalc | apply Rabs_value; wcalc].
  rewrite (flow_step_value w vzero _ _ 1 1 5 0.4); [| lra | wcalc | apply Rabs_value; wcalc].
  rewrite (flow_step_value w vzero _ _ 2 2 5 0.2); [| lra | wcalc | apply Rabs_value; wcalc].
  rewrite !if_Rlt_true by lra.
  change ((2 =? -1)%Z) with false. cbv iota.
  f_equal. unfold set_cursor_location. f_equal. f_equal. wcalc.
Qed.

(** ** Face synthesizer *)

Lemma inverted_identity : inverted identity_matrix = Ok identity_matrix.
Proof.
  unfold inverted.
  assert (D : determinant identity_matrix = 1) by (unfold determinant; rcalc).
  rewrite D, if_Req_false by lra. unfold identity_matrix. cbn [row_x row_y row_z translation].
  f_equal. f_equal; apply vec_eq; unfold cross, dot, vscale, vzero; simpl; lra.
Qed.

Lemma mat_apply_identity (v : Vec) : mat_apply identity_matrix v = v.
Proof. unfold mat_apply. apply vec_eq; rcalc. Qed.

Lemma nth_new (A : Type) (l l' : list A) (k : nat) (d : A) :
  nth (List.length l + k) (l ++ l') d = nth k l' d.
Proof.
  rewrite app_nth2 by lia. f_equal. lia.
Qed.

(** C7: the four vertices are appended as P1, P2, P3, P4, and the new
    face runs P1, P4, P3, P2 when the two dot products are both
    positive or both non-positive, and P1, P2, P3, P4 otherwise. *)
Theorem build_face_winding (w : World)
    (position x_vector y_vector up_vector right_vector : Vec) (matrix_inv : Matrix) :
  inverted (matrix_world (object w)) = Ok matrix_inv ->
  let P1 := mat_apply matrix_inv position in
  let P2 := P1 +v y_vector in
  let P3 := P1 +v x_vector +v y_vector in
  let P4 := P1 +v x_vector in
  let x_dot := dot right_vector (normalized x_vector) in
  let y_dot := dot up_vector (normalized y_vector) in
  exists (w' : World) (face : Face),
    build_face w position x_vector y_vector up_vector right_vector
      = Ok (w', List.length (faces (bmesh w))) /\
    verts (bmesh w') = verts (bmesh w) ++ [P1; P2; P3; P4] /\
    faces (bmesh w') = faces (bmesh w) ++ [face] /\
    ((0 < x_dot /\ 0 < y_dot) \/ (x_dot <= 0 /\ y_dot <= 0) ->
     map (co (bmesh w')) (face_verts face) = [P1; P4; P3; P2]) /\
    (~ ((0 < x_dot /\ 0 < y_dot) \/ (x_dot <= 0 /\ y_dot <= 0)) ->
     map (co (bmesh w')) (face_verts face) = [P1; P2; P3; P4]).
Proof.
  intros Hinv P1 P2 P3 P4 x_dot y_dot.
  unfold build_face. rewrite Hinv. cbn [bind].
  fold P1 P2 P3 P4 x_dot y_dot.
  set (n := List.length (verts (bmesh w))).
  set (order := if Bool.eqb _ _ then _ else _).
  eexists. exists (mkFace (map (fun v => mkLoop v (0, 0)) order) 0%Z).
  split; [reflexivity |].
  cbn [bmesh verts faces set_tree set_bmesh].
  split; [reflexivity |]. split; [reflexivity |].
  assert (C0 : forall l d, nth n (verts (bmesh w) ++ l) d = nth 0 l d).
  { intros l d. rewrite <- (Nat.add_0_r n). apply nth_new. }
  assert (C1 : forall l d, nth (S n) (verts (bmesh w) ++ l) d = nth 1 l d).
  { intros l d. replace (S n) with (n + 1)%nat by lia. apply nth_new. }
  assert (C2 : forall l d, nth (S (S n)) (verts (bmesh w) ++ l) d = nth 2 l d).
  { intros l d. replace (S (S n)) with (n + 2)%nat by lia. apply nth_new. }
  assert (C3 : forall l d, nth (S (S (S n))) (verts (bmesh w) ++ l) d = nth 3 l d).
  { intros l d. replace (S (S (S n))) with (n + 3)%nat by lia. apply nth_new. }
  unfold face_verts, co. cbn [loops verts].
  split; intros H; unfold order;
    destruct (Rlt_dec 0 x_dot), (Rlt_dec 0 y_dot); cbn [Bool.eqb];
    try (exfalso; lra); try (exfalso; apply H; lra);
    cbn [map vert]; rewrite C0, C1, C2, C3; reflexivity.
Qed.

Lemma build_face_winding_witness :
  exists (w' : World) (face : Face),
    build_face (sample_world (unit_grid None) [] (mkBMesh [] []) no_hit)
               vzero axis_x axis_y axis_y axis_x = Ok (w', 0%nat) /\
    verts (bmesh w') =
      [mat_apply identity_matrix vzero;
       mat_apply identity_matrix vzero +v axis_y;
       mat_apply identity_matrix vzero +v axis_x +v axis_y;
       mat_apply identity_matrix vzero +v axis_x] /\
    faces (bmesh w') = [face] /\
    map (co (bmesh w')) (face_verts face) =
      [mat_apply identity_matrix vzero;
       mat_apply identity_matrix vzero +v axis_x;
       mat_apply identity_matrix vzero +v axis_x +v axis_y;
       mat_apply identity_matrix vzero +v axis_y].
Proof.
  destruct (build_face_winding (sample_world (unit_grid None) [] (mkBMesh [] []) no_hit)
              vzero axis_x axis_y axis_y axis_x identity_matrix inverted_identity)
    as (w' & face & E & Hv & Hf & Hagree & _).
  exists w', face. repeat split; auto.
  apply Hagree. left.
  rewrite !(normalized_value _ 1) by rcalc. split; rcalc.
Defined.

(** ** UV projection *)

Lemma map_result_ok (A B : Type) (f : A -> result B) (g : A -> B) (l : list A) :
  (forall a, In a l -> f a = Ok (g a)) -> map_result f l = Ok (map g l).
Proof.
  induction l as [| a t IH]; intros H; [reflexivity |].
  cbn [map_result map]. rewrite (H a) by (left; reflexivity). cbn [bind].
  rewrite IH by (intros b Hb; apply H; right; exact Hb). reflexivity.
Qed.

Lemma project_loop_ok (mesh : BMesh) (up_vector right_vector vert_origin : Vec)
    (wc_x wc_y uv_unit_x uv_unit_y : R) (t : Vec) (loop : Loop) :
  wc_x <> 0 -> wc_y <> 0 ->
  project_loop mesh up_vector right_vector vert_origin (wc_x, wc_y)
               uv_unit_x uv_unit_y (Translation t) loop
  = Ok (mkLoop (vert loop)
          ((dot right_vector (co mesh (vert loop) -v vert_origin) / wc_x + 0.5)
             * uv_unit_x + vx t,
           (dot up_vector (co mesh (vert loop) -v vert_origin) / wc_y + 0.5)
             * uv_unit_y + vy t)).
Proof.
  intros Hx Hy. unfold project_loop. cbn [fst snd vx vy].
  rewrite !py_div_ok by assumption. cbn [bind].
  f_equal. f_equal. unfold mat_apply, Translation, dot, vadd. simpl.
  f_equal; ring.
Qed.

Lemma nth_error_list_set (A : Type) (l : list A) (i : nat) (a x : A) :
  nth_error l i = Some x -> nth_error (list_set l i a) i = Some a.
Proof.
  revert i. induction l as [| y t IH]; intros [| j] H; simpl in *; try discriminate; auto.
Qed.

Lemma nth_error_leb (A : Type) (l : list A) (i : nat) (x : A) :
  nth_error l i = Some x -> (List.length l <=? i)%nat = false.
Proof.
  intros H. apply Nat.leb_gt. apply nth_error_Some. congruence.
Qed.

Lemma vsub_self (a : Vec) : a -v a = vzero.
Proof. apply vec_eq; simpl; ring. Qed.

Lemma dot_zero_r (a : Vec) : dot a vzero = 0.
Proof. unfold dot; simpl; ring. Qed.

(** C8: with a 32x32 cell on a 256x256 texture and tile (2, 1), the
    unit is (0.125, 0.125) and a loop whose vertex sits on the face
    centroid gets the UV (0.3125, 0.1875). *)
Theorem uv_map_face_centroid_vertex (w : World) (up_vector right_vector : Vec)
    (face_index i : nat) (target_grid : Grid) (target_img : Image)
    (face : Face) (loop : Loop) :
  py_index (sprytile_grids (scene w)) (sprytile_gridid (object w)) = Ok target_grid ->
  grid target_grid = (32, 32)%Z ->
  get_grid_texture target_grid = Some target_img ->
  size target_img = (256, 256)%Z ->
  world_pixels (sprytile_data (scene w)) <> 0%Z ->
  nth_error (faces (bmesh w)) face_index = Some face ->
  nth_error (loops face) i = Some loop ->
  co (bmesh w) (vert loop) = calc_center_median (bmesh w) face ->
  uv_unit target_grid target_img = Ok (0.125, 0.125) /\
  exists (w' : World) (face' : Face) (loop' : Loop),
    uv_map_face w up_vector right_vector (2, 1)%Z face_index
      = Ok (w', Some (face_index, target_grid)) /\
    nth_error (faces (bmesh w')) face_index = Some face' /\
    nth_error (loops face') i = Some loop' /\
    vert loop' = vert loop /\
    uv loop' = (0.3125, 0.1875).
Proof.
  intros Hgrid Hcell Htex Hsize Hwp Hface Hloop Hcentre.
  assert (Hu : uv_unit target_grid target_img = Ok (0.125, 0.125)).
  { unfold uv_unit. rewrite Hsize, Hcell. cbn [fst snd].
    rewrite !py_div_ok by lra. cbn [bind]. f_equal. f_equal; lra. }
  split; [exact Hu |].
  assert (Hw : IZR (world_pixels (sprytile_data (scene w))) <> 0)
    by (apply not_0_IZR; exact Hwp).
  assert (Hwc : 32 / IZR (world_pixels (sprytile_data (scene w))) <> 0).
  { apply Rmult_integral_contrapositive. split; [lra |].
    apply Rinv_neq_0_compat. exact Hw. }
  unfold uv_map_face. rewrite Hgrid. cbn [bind]. rewrite Hcell. cbn [fst snd].
  rewrite !py_div_ok by assumption. cbn [bind].
  rewrite (nth_error_leb _ _ _ _ Hface), Htex, Hu. cbn [bind].
  unfold py_index. rewrite Hface. cbn [bind].
  erewrite map_result_ok by (intros a _; apply project_loop_ok; assumption).
  cbn [bind].
  eexists. eexists. eexists.
  split; [reflexivity |]. cbn [bmesh set_bmesh faces loops].
  split; [eapply nth_error_list_set; exact Hface |]. cbn [loops].
  split; [apply map_nth_error; exact Hloop |]. cbn [vert uv].
  split; [reflexivity |].
  rewrite Hcentre, vsub_self, !dot_zero_r. unfold Rdiv at 1 3. rewrite !Rmult_0_l.
  cbn [vx vy]. f_equal; lra.
Qed.

Lemma uv_map_face_centroid_vertex_witness :
  uv_unit atlas_grid (mkImage (256, 256)%Z) = Ok (0.125, 0.125) /\
  exists (w' : World) (face' : Face) (loop' : Loop),
    uv_map_face
      (sample_world atlas_grid [] (triangle vzero (mkVec 1 0 0) (mkVec (-1) 0 0)) no_hit)
      axis_y axis_x (2, 1)%Z 0
      = Ok (w', Some (0%nat, atlas_grid)) /\
    nth_error (faces (bmesh w')) 0 = Some face' /\
    nth_error (loops face') 0 = Some loop' /\
    vert loop' = 0%nat /\
    uv loop' = (0.3125, 0.1875).
Proof.
  apply (uv_map_face_centroid_vertex
           (sample_world atlas_grid [] (triangle vzero (mkVec 1 0 0) (mkVec (-1) 0 0)) no_hit)
           axis_y axis_x 0 0 atlas_grid (mkImage (256, 256)%Z)
           (mkFace [mkLoop 0 (0, 0); mkLoop 1 (0, 0); mkLoop 2 (0, 0)] 0%Z)
           (mkLoop 0 (0, 0))).
  - reflexivity.
  - reflexivity.
  - reflexivity.
  - reflexivity.
  - simpl. discriminate.
  - reflexivity.
  - reflexivity.
  - unfold calc_center_median, vsum. simpl. apply vec_eq; simpl; lra.
Defined.

(** ** What each method leaves alone *)

Lemma add_virtual_cursor_frame (w : World) (p : Vec) :
  scene (add_virtual_cursor w p) = scene w /\
  object (add_virtual_cursor w p) = object w /\
  materials (add_virtual_cursor w p) = materials w /\
  bmesh (add_virtual_cursor w p) = bmesh w /\
  tree (add_virtual_cursor w p) = tree w.
Proof.
  unfold add_virtual_cursor.
  destruct (List.length (virtual_cursor w) =? 0)%nat; [repeat split |].
  destruct (Rlt_dec (magnitude _) 0.1); [repeat split |].
  destruct (Rlt_dec (dot _ _) 0); repeat split.
Qed.

Lemma map_result_vert (f : Loop -> result Loop) (l l' : list Loop) :
  (forall a b, f a = Ok b -> vert b = vert a) ->
  map_result f l = Ok l' -> map vert l' = map vert l.
Proof.
  intros Hf. revert l'. induction l as [| a t IH]; intros l' H.
  - injection H as <-. reflexivity.
  - cbn [map_result] in H. destruct (f a) as [b |] eqn:Ea; [| discriminate].
    cbn [bind] in H. destruct (map_result f t) as [bs |]; [| discriminate].
    cbn [bind] in H. injection H as <-. cbn [map].
    rewrite (Hf a b Ea), (IH bs eq_refl). reflexivity.
Qed.

Lemma project_loop_vert (mesh : BMesh) (up_vector right_vector vert_origin : Vec)
    (wc : R * R) (ux uy : R) (m : Matrix) (a b : Loop) :
  project_loop mesh up_vector right_vector vert_origin wc ux uy m a = Ok b ->
  vert b = vert a.
Proof.
  unfold project_loop. intros H.
  destruct (py_div _ (fst wc)); [| discriminate]. cbn [bind] in H.
  destruct (py_div _ (snd wc)); [| discriminate]. cbn [bind] in H.
  injection H as <-. reflexivity.
Qed.

Lemma map_list_set (A B : Type) (g : A -> B) (l : list A) (i : nat) (x a : A) :
  nth_error l i = Some x -> g a = g x -> map g (list_set l i a) = map g l.
Proof.
  revert i. induction l as [| y t IH]; intros [| j] H E; simpl in *; try discriminate.
  - injection H as ->. now rewrite E.
  - f_equal. now apply IH.
Qed.

(** The UV projection touches nothing but loop UVs. *)
Lemma uv_map_face_frame (w w' : World) (up_vector right_vector : Vec) (tile_xy : Z * Z)
    (face_index : nat) (ret : option (nat * Grid)) :
  uv_map_face w up_vector right_vector tile_xy face_index = Ok (w', ret) ->
  scene w' = scene w /\ object w' = object w /\
  virtual_cursor w' = virtual_cursor w /\ tree w' = tree w /\
  verts (bmesh w') = verts (bmesh w) /\
  map face_verts (faces (bmesh w')) = map face_verts (faces (bmesh w)) /\
  map material_index (faces (bmesh w')) = map material_index (faces (bmesh w)).
Proof.
  unfold uv_map_face. intros H.
  destruct (py_index (sprytile_grids (scene w)) _) as [g |]; [| discriminate].
  cbn [bind] in H.
  destruct (py_div (IZR (fst (grid g))) _); [| discriminate]. cbn [bind] in H.
  destruct (py_div (IZR (snd (grid g))) _); [| discriminate]. cbn [bind] in H.
  destruct (List.length (faces (bmesh w)) <=? face_index)%nat.
  { injection H as <- <-. repeat split. }
  destruct (get_grid_texture g) as [img |].
  2:{ injection H as <- <-. repeat split. }
  destruct (uv_unit g img) as [[ux uy] |]; [| discriminate]. cbn [bind] in H.
  unfold py_index in H.
  destruct (nth_error (faces (bmesh w)) face_index) as [face |] eqn:Ef; [| discriminate].
  cbn [bind] in H.
  destruct (map_result _ (loops face)) as [new_loops |] eqn:El; [| discriminate].
  cbn [bind] in H. injection H as <- <-.
  cbn [scene object virtual_cursor tree bmesh set_bmesh verts faces].
  repeat split.
  - apply (map_list_set _ _ face_verts _ _ face); [exact Ef |].
    unfold face_verts. cbn [loops].
    eapply map_result_vert; [| exact El].
    intros la lb. apply project_loop_vert.
  - apply (map_list_set _ _ material_index _ _ face); [exact Ef | reflexivity].
Qed.

(** The two bare [return]s of [uv_map_face]: nothing changes and
    nothing is raised. *)
Lemma uv_map_face_skips (w : World) (up_vector right_vector : Vec) (tile_xy : Z * Z)
    (face_index : nat) (target_grid : Grid) :
  py_index (sprytile_grids (scene w)) (sprytile_gridid (object w)) = Ok target_grid ->
  world_pixels (sprytile_data (scene w)) <> 0%Z ->
  (List.length (faces (bmesh w)) <= face_index)%nat \/ get_grid_texture target_grid = None ->
  uv_map_face w up_vector right_vector tile_xy face_index = Ok (w, None).
Proof.
  intros Hg Hwp H. unfold uv_map_face. rewrite Hg. cbn [bind].
  rewrite !py_div_ok by (apply not_0_IZR; exact Hwp). cbn [bind].
  destruct (List.length (faces (bmesh w)) <=? face_index)%nat eqn:E; [reflexivity |].
  destruct H as [H | H]; [apply Nat.leb_gt in E; lia |].
  now rewrite H.
Qed.

Lemma flow_cursor_frame (w w' : World) (face_index : nat) (p : Vec) :
  flow_cursor w face_index p = Ok w' ->
  bmesh w' = bmesh w /\ virtual_cursor w' = virtual_cursor w /\ tree w' = tree w.
Proof.
  unfold flow_cursor. intros H.
  destruct (List.length (virtual_cursor w) <=? 1)%nat.
  { injection H as <-. repeat split. }
  destruct (py_index (faces (bmesh w)) face_index); [| discriminate].
  cbn [bind] in H.
  destruct (fold_left _ _ _) as [idx pos].
  destruct (idx =? -1)%Z; injection H as <-; repeat split.
Qed.

(** ** Paint mode *)

Lemma sample_raycast (g : Grid) (history : list Vec) (mesh : BMesh) (h : Hit)
    (ray_origin ray_direction : Vec) :
  raycast_object (sample_world g history mesh (always_hit h)) ray_origin ray_direction
  = Ok (Some h).
Proof.
  unfold raycast_object. cbn [sample_world object matrix_world tree].
  rewrite inverted_identity. cbn [bind]. unfold always_hit.
  rewrite mat_apply_identity. destruct h; reflexivity.
Qed.

(** In paint mode a hit on a grid without texture ends in the
    unpacking of the [None] that [uv_map_face] returned. *)
Lemma execute_paint_unpacks_none (w : World) (ray_origin ray_vector : Vec)
    (h : Hit) (target_grid : Grid) :
  raycast_object w ray_origin ray_vector = Ok (Some h) ->
  py_index (sprytile_grids (scene w)) (sprytile_gridid (object w)) = Ok target_grid ->
  world_pixels (sprytile_data (scene w)) <> 0%Z ->
  (List.length (faces (bmesh w)) <= hit_face h)%nat \/ get_grid_texture target_grid = None ->
  execute_paint w ray_origin ray_vector = Raise TypeError.
Proof.
  intros Hray Hg Hwp Hskip. unfold execute_paint, get_current_grid_vectors.
  rewrite Hray. cbn [bind].
  destruct (add_virtual_cursor_frame w (hit_location h)) as (Es & Eo & _ & Eb & _).
  rewrite Es, Eo, Hg. cbn [bind].
  rewrite (uv_map_face_skips _ _ _ _ _ target_grid);
    [reflexivity | now rewrite Es, Eo | now rewrite Es | now rewrite Eb].
Qed.

(** C9 in paint mode: a ray that hits face 0 of a mesh whose grid has
    no texture makes [execute_paint] raise [TypeError], although
    [uv_map_face] itself returned without touching anything. *)
Theorem execute_paint_without_texture_raises :
  let h := mkHit (mkVec 0.25 0.25 0) axis_z 0 1 in
  let w := sample_world (unit_grid None) []
             (triangle vzero (mkVec 1 0 0) (mkVec 0 1 0)) (always_hit h) in
  uv_map_face w axis_y axis_x (0, 0)%Z 0 = Ok (w, None) /\
  execute_paint w (mkVec 0.25 0.25 1) (mkVec 0 0 (-1)) = Raise TypeError.
Proof.
  cbv zeta. split.
  - apply (uv_map_face_skips _ _ _ _ _ (unit_grid None));
      [reflexivity | simpl; discriminate | right; reflexivity].
  - apply (execute_paint_unpacks_none _ _ _
             (mkHit (mkVec 0.25 0.25 0) axis_z 0 1) (unit_grid None));
      [apply sample_raycast | reflexivity | simpl; discriminate | right; reflexivity].
Qed.

(** ** Ray cast against the object *)

(** C10: the wrapper reports no hit exactly when the tree does; on a
    hit only the location goes back through [matrix_world], the normal,
    face and distance are the tree's own, and the test of
    [execute_build] multiplies that normal with the painting plane
    normal as it is. *)
Theorem raycast_object_keeps_local_normal (w : World)
    (ray_origin ray_direction : Vec) (matrix_inv : Matrix) :
  inverted (matrix_world (object w)) = Ok matrix_inv ->
  let ray_origin_obj := mat_apply matrix_inv ray_origin in
  let ray_direction_obj :=
    mat_apply matrix_inv (ray_origin +v ray_direction) -v ray_origin_obj in
  (raycast_object w ray_origin ray_direction = Ok None <->
   tree w ray_origin_obj ray_direction_obj = None) /\
  (forall h : Hit,
     tree w ray_origin_obj ray_direction_obj = Some h ->
     let world_hit :=
       mkHit (mat_apply (matrix_world (object w)) (hit_location h))
             (hit_normal h) (hit_face h) (hit_distance h) in
     raycast_object w ray_origin ray_direction = Ok (Some world_hit) /\
     forall target_grid : Grid,
       py_index (sprytile_grids (scene w)) (sprytile_gridid (object w)) = Ok target_grid ->
       let plane_normal := normalized (paint_normal_vector (sprytile_data (scene w))) in
       let up_vector := normalized (paint_up_vector (sprytile_data (scene w))) in
       let right_vector := cross up_vector plane_normal in
       execute_build w ray_origin ray_direction =
       if (if Rlt_dec (Rabs (dot plane_normal (hit_normal h) - 1)) 0.05
           then true else false)
          && (if Rlt_dec (Rabs (distance_point_to_plane
                                  (mat_apply (matrix_world (object w)) (hit_location h))
                                  (cursor_location (scene w)) plane_normal)) 0.05
              then true else false)
       then build_paint_over w up_vector right_vector (tile_selection target_grid) world_hit
       else build_new_face w up_vector right_vector plane_normal
                           (tile_selection target_grid) ray_origin ray_direction).
Proof.
  intros Hinv o' d'. split.
  - unfold raycast_object. rewrite Hinv. cbn [bind]. fold o' d'.
    destruct (tree w o' d'); split; intros H; try discriminate; reflexivity.
  - intros h Hh world_hit.
    assert (E : raycast_object w ray_origin ray_direction = Ok (Some world_hit)).
    { unfold raycast_object. rewrite Hinv. cbn [bind]. fold o' d'. now rewrite Hh. }
    split; [exact E |].
    intros target_grid Hg plane_normal up_vector right_vector.
    unfold execute_build, get_current_grid_vectors. rewrite Hg. cbn [bind].
    rewrite E. cbn [bind]. reflexivity.
Qed.

Lemma inverted_translation (t : Vec) :
  inverted (Translation t) = Ok (Translation (t *v (-1))).
Proof.
  unfold inverted.
  assert (D : determinant (Translation t) = 1) by (unfold determinant; rcalc).
  rewrite D, if_Req_false by lra. unfold Translation.
  cbn [row_x row_y row_z translation].
  f_equal. f_equal; apply vec_eq; unfold cross, dot, vscale, vzero; simpl; lra.
Qed.

Lemma raycast_object_keeps_local_normal_witness :
  let h := mkHit vzero axis_z 0 1 in
  let w := placed_world (Translation (mkVec 5 0 0)) [] (unit_grid None) []
             (triangle (mkVec (-1) (-1) 0) (mkVec 1 (-1) 0) (mkVec 0 1 0))
             (always_hit h) in
  raycast_object w (mkVec 5 0 1) (mkVec 0 0 (-1))
  = Ok (Some (mkHit (mkVec 5 0 0) axis_z 0 1)).
Proof.
  cbv zeta.
  destruct (proj2 (raycast_object_keeps_local_normal
                     (placed_world (Translation (mkVec 5 0 0)) [] (unit_grid None) []
                        (triangle (mkVec (-1) (-1) 0) (mkVec 1 (-1) 0) (mkVec 0 1 0))
                        (always_hit (mkHit vzero axis_z 0 1)))
                     (mkVec 5 0 1) (mkVec 0 0 (-1))
                     (Translation (mkVec 5 0 0 *v (-1)))
                     (inverted_translation (mkVec 5 0 0)))
                  (mkHit vzero axis_z 0 1) eq_refl) as [E _].
  rewrite E. cbn [hit_location hit_normal hit_face hit_distance placed_world
                  object matrix_world].
  f_equal. f_equal. f_equal. unfold mat_apply, Translation. vcalc.
Defined.

(** ** Build mode *)

Lemma normalized_unit (v : Vec) : dot v v = 1 -> normalized v = v.
Proof.
  intros H. rewrite (normalized_value v 1) by lra. apply vec_eq; simpl; lra.
Qed.

Lemma sample_vectors (g : Grid) (history : list Vec) (mesh : BMesh) (t : BVHTree) :
  get_current_grid_vectors (scene (sample_world g history mesh t))
  = (axis_y, axis_x, axis_z).
Proof.
  unfold get_current_grid_vectors. cbn [sample_world scene sprytile_data
    paint_normal_vector paint_up_vector].
  rewrite !normalized_unit by rcalc.
  f_equal. f_equal. vcalc.
Qed.

(** C1, as the code has it: a hit whose normal points the way the
    painting plane normal does (|dot - 1| < 0.05) at a point within
    0.05 of the reference plane takes the paint-over branch; when that
    branch returns, the cursor sample is the hit location, the mesh
    carries the UVs [uv_map_face] gave the hit face, and no vertex or
    face was added. *)
Theorem execute_build_paints_over_aligned_hit (w : World)
    (ray_origin ray_vector : Vec) (h : Hit) (target_grid : Grid) :
  py_index (sprytile_grids (scene w)) (sprytile_gridid (object w)) = Ok target_grid ->
  raycast_object w ray_origin ray_vector = Ok (Some h) ->
  let plane_normal := normalized (paint_normal_vector (sprytile_data (scene w))) in
  let up_vector := normalized (paint_up_vector (sprytile_data (scene w))) in
  let right_vector := cross up_vector plane_normal in
  Rabs (dot plane_normal (hit_normal h) - 1) < 0.05 ->
  Rabs (distance_point_to_plane (hit_location h) (cursor_location (scene w))
                                plane_normal) < 0.05 ->
  execute_build w ray_origin ray_vector
    = build_paint_over w up_vector right_vector (tile_selection target_grid) h /\
  forall w' : World,
    execute_build w ray_origin ray_vector = Ok w' ->
    verts (bmesh w') = verts (bmesh w) /\
    map face_verts (faces (bmesh w')) = map face_verts (faces (bmesh w)) /\
    virtual_cursor w' = virtual_cursor (add_virtual_cursor w (hit_location h)) /\
    exists (w_uv : World) (ret : option (nat * Grid)),
      uv_map_face (add_virtual_cursor w (hit_location h)) up_vector right_vector
                  (tile_selection target_grid) (hit_face h) = Ok (w_uv, ret) /\
      bmesh w' = bmesh w_uv.
Proof.
  intros Hg Hray plane_normal up_vector right_vector Hdot Hplane.
  assert (E : execute_build w ray_origin ray_vector
              = build_paint_over w up_vector right_vector (tile_selection target_grid) h).
  { unfold execute_build, get_current_grid_vectors. rewrite Hg. cbn [bind].
    rewrite Hray. cbn [bind]. fold plane_normal up_vector right_vector.
    unfold paint_over_gate. rewrite !if_Rlt_true by assumption. reflexivity. }
  split; [exact E |].
  intros w' Hw'. rewrite E in Hw'. unfold build_paint_over in Hw'.
  destruct (add_virtual_cursor_frame w (hit_location h)) as (_ & _ & _ & Eb & _).
  destruct (uv_map_face (add_virtual_cursor w (hit_location h)) up_vector right_vector
              (tile_selection target_grid) (hit_face h)) as [[w_uv ret] |] eqn:Euv;
    [| discriminate].
  cbn [bind] in Hw'.
  destruct (uv_map_face_frame _ _ _ _ _ _ _ Euv) as (_ & _ & Ec & _ & Ev & Ef & _).
  assert (Hflow : bmesh w' = bmesh w_uv /\ virtual_cursor w' = virtual_cursor w_uv).
  { destruct (cursor_flow (sprytile_data (scene w_uv))).
    - destruct (flow_cursor_frame _ _ _ _ Hw') as (H1 & H2 & _). auto.
    - injection Hw' as <-. auto. }
  destruct Hflow as [Hb Hc]. rewrite Hb, Hc, Ev, Ef, Ec, Eb.
  repeat split. exists w_uv, ret. auto.
Qed.

Lemma execute_build_paints_over_aligned_hit_witness :
  let h := mkHit (mkVec 0.25 0.25 0) axis_z 0 1 in
  let w := sample_world (unit_grid None) []
             (triangle vzero (mkVec 1 0 0) (mkVec 0 1 0)) (always_hit h) in
  let plane_normal := normalized (paint_normal_vector (sprytile_data (scene w))) in
  let up_vector := normalized (paint_up_vector (sprytile_data (scene w))) in
  let right_vector := cross up_vector plane_normal in
  execute_build w (mkVec 0.25 0.25 1) (mkVec 0 0 (-1))
    = build_paint_over w up_vector right_vector (0, 0)%Z h /\
  forall w' : World,
    execute_build w (mkVec 0.25 0.25 1) (mkVec 0 0 (-1)) = Ok w' ->
    verts (bmesh w') = verts (bmesh w) /\
    map face_verts (faces (bmesh w')) = map face_verts (faces (bmesh w)) /\
    virtual_cursor w' = virtual_cursor (add_virtual_cursor w (hit_location h)) /\
    exists (w_uv : World) (ret : option (nat * Grid)),
      uv_map_face (add_virtual_cursor w (hit_location h)) up_vector right_vector
                  (0, 0)%Z (hit_face h) = Ok (w_uv, ret) /\
      bmesh w' = bmesh w_uv.
Proof.
  cbv zeta.
  apply (execute_build_paints_over_aligned_hit
           (sample_world (unit_grid None) []
              (triangle vzero (mkVec 1 0 0) (mkVec 0 1 0))
              (always_hit (mkHit (mkVec 0.25 0.25 0) axis_z 0 1)))
           (mkVec 0.25 0.25 1) (mkVec 0 0 (-1))
           (mkHit (mkVec 0.25 0.25 0) axis_z 0 1) (unit_grid None)).
  - reflexivity.
  - apply sample_raycast.
  - cbn [sample_world scene sprytile_data paint_normal_vector hit_normal].
    rewrite normalized_unit by rcalc. rewrite (Rabs_value _ 0) by rcalc. lra.
  - cbn [sample_world scene sprytile_data paint_normal_vector hit_location
         cursor_location].
    unfold distance_point_to_plane.
    rewrite !(normalized_unit axis_z) by rcalc. rewrite (Rabs_value _ 0) by rcalc. lra.
Defined.

Lemma paint_over_gate_true (plane_normal cursor : Vec) (h : Hit) :
  Rabs (dot plane_normal (hit_normal h) - 1) < 0.05 ->
  Rabs (distance_point_to_plane (hit_location h) cursor plane_normal) < 0.05 ->
  paint_over_gate plane_normal cursor h = true.
Proof.
  intros H1 H2. unfold paint_over_gate. now rewrite !if_Rlt_true by assumption.
Qed.

Lemma paint_over_gate_false (plane_normal cursor : Vec) (h : Hit) :
  ~ Rabs (dot plane_normal (hit_normal h) - 1) < 0.05 ->
  paint_over_gate plane_normal cursor h = false.
Proof.
  intros H1. unfold paint_over_gate. now rewrite (if_Rlt_false _ _ _ _ _ H1).
Qed.

(** The aligned hit of the sample scene does return: the sample is
    recorded and the mesh is as it was. *)
Lemma execute_build_aligned_hit_returns :
  let h := mkHit (mkVec 0.25 0.25 0) axis_z 0 1 in
  let w := sample_world (unit_grid None) []
             (triangle vzero (mkVec 1 0 0) (mkVec 0 1 0)) (always_hit h) in
  execute_build w (mkVec 0.25 0.25 1) (mkVec 0 0 (-1))
    = Ok (set_virtual_cursor w [mkVec 0.25 0.25 0]).
Proof.
  cbv zeta. unfold execute_build.
  change (py_index _ _) with (Ok (unit_grid None)). cbn [bind].
  rewrite sample_vectors, sample_raycast. cbn [bind].
  rewrite paint_over_gate_true.
  - unfold build_paint_over.
    change (add_virtual_cursor ?w ?p) with (set_virtual_cursor w [p]).
    rewrite (uv_map_face_skips _ _ _ _ _ (unit_grid None));
      [reflexivity | reflexivity | simpl; discriminate | right; reflexivity].
  - cbn [hit_normal]. rewrite (Rabs_value _ 0) by rcalc. lra.
  - cbn [hit_location sample_world scene cursor_location].
    unfold distance_point_to_plane. rewrite (normalized_unit axis_z) by rcalc.
    rewrite (Rabs_value _ 0) by rcalc. lra.
Qed.

(** C1 as stated fails: the hit normal (0, 0, -1) is exactly opposite
    the plane normal (0, 0, 1) and the hit point lies on the reference
    plane, and [execute_build] adds four vertices and a face. *)
Lemma execute_build_opposite_normal_builds_face :
  let h := mkHit (mkVec 0.25 0.25 0) (mkVec 0 0 (-1)) 0 1 in
  let w := sample_world (unit_grid None) []
             (triangle vzero (mkVec 1 0 0) (mkVec 0 1 0)) (always_hit h) in
  let plane_normal := normalized (paint_normal_vector (sprytile_data (scene w))) in
  raycast_object w (mkVec 0.25 0.25 1) (mkVec 0 0 (-1)) = Ok (Some h) /\
  hit_normal h = plane_normal *v (-1) /\
  distance_point_to_plane (hit_location h) (cursor_location (scene w)) plane_normal = 0 /\
  exists w' : World,
    execute_build w (mkVec 0.25 0.25 1) (mkVec 0 0 (-1)) = Ok w' /\
    List.length (verts (bmesh w')) = 7%nat /\
    List.length (faces (bmesh w')) = 2%nat /\
    List.length (verts (bmesh w)) = 3%nat /\
    List.length (faces (bmesh w)) = 1%nat.
Proof.
  cbv zeta. split; [apply sample_raycast |].
  cbn [sample_world scene sprytile_data paint_normal_vector hit_normal hit_location
       cursor_location].
  rewrite (normalized_unit axis_z) by rcalc.
  split; [vcalc |]. split.
  { unfold distance_point_to_plane. rewrite (normalized_unit axis_z) by rcalc. rcalc. }
  unfold execute_build.
  change (py_index _ _) with (Ok (unit_grid None)). cbn [bind].
  rewrite sample_vectors, sample_raycast. cbn [bind].
  rewrite paint_over_gate_false.
  2:{ cbn [hit_normal]. rewrite (Rabs_value _ 2) by rcalc. lra. }
  unfold build_new_face, raycast_grid.
  cbn [sample_world scene cursor_location sprytile_data world_pixels sprytile_grids
       object sprytile_gridid].
  assert (HP : intersect_line_plane (mkVec 0.25 0.25 1)
                 (mkVec 0.25 0.25 1 +v mkVec 0 0 (-1)) vzero axis_z
               = Some (mkVec 0.25 0.25 0)).
  { unfold intersect_line_plane. rewrite if_Req_false by rcalc. f_equal. vcalc. }
  rewrite HP.
  change (py_index [unit_grid None] 0) with (Ok (unit_grid None)).
  cbn [bind unit_grid grid fst snd].
  assert (HG : get_grid_pos (mkVec 0.25 0.25 0) vzero axis_x axis_y 1 1 1
               = Ok (vzero, axis_x, axis_y)).
  { unfold get_grid_pos.
    rewrite (if_Rlt_false _ (dot axis_x _)) by (apply dot_normalized_nonneg; rcalc).
    rewrite (if_Rlt_false _ (dot axis_y _)) by (apply dot_normalized_nonneg; rcalc).
    rewrite !(py_div_ok _ 1) by lra. simpl bind.
    rewrite !py_div_ok by lra. simpl bind.
    rewrite !(floor_between _ 0) by rcalc.
    apply ok3_eq; vcalc. }
  rewrite HG. cbn [bind].
  change (add_virtual_cursor ?w ?p) with (set_virtual_cursor w [p]).
  unfold build_face. cbn [set_virtual_cursor sample_world object matrix_world].
  rewrite inverted_identity. cbn [bind].
  rewrite (uv_map_face_skips _ _ _ _ _ (unit_grid None));
    [| reflexivity | simpl; discriminate | right; reflexivity].
  cbn [bind]. eexists. split; [reflexivity |].
  repeat split.
Qed.

(** * Further properties *)

(** ** Virtual cursor history *)

Lemma deque_append_length (d : list Vec) (x : Vec) :
  (List.length d <= 3 -> List.length (deque_append d x) <= 3)%nat.
Proof.
  intros H. unfold deque_append.
  destruct (3 <? List.length (d ++ [x]))%nat eqn:E.
  - destruct d; simpl in *; rewrite ?length_app in *; simpl in *; lia.
  - apply Nat.ltb_ge in E. exact E.
Qed.

Lemma nth_last_app (hist : list Vec) (x : Vec) :
  nth (List.length (hist ++ [x]) - 1) (hist ++ [x]) vzero = x.
Proof.
  rewrite length_app. simpl. replace (List.length hist + 1 - 1)%nat
    with (List.length hist + 0)%nat by lia.
  apply nth_new.
Qed.

Lemma length_app_nonzero (hist : list Vec) (x : Vec) :
  (List.length (hist ++ [x]) =? 0)%nat = false.
Proof. apply Nat.eqb_neq. rewrite length_app. simpl. lia. Qed.

Lemma add_virtual_cursor_length_le (w : World) (cursor_pos : Vec) :
  (List.length (virtual_cursor w) <= 3)%nat ->
  (List.length (virtual_cursor (add_virtual_cursor w cursor_pos)) <= 3)%nat.
Proof.
  intros H. unfold add_virtual_cursor.
  destruct (List.length (virtual_cursor w) =? 0)%nat.
  { cbn [virtual_cursor set_virtual_cursor]. now apply deque_append_length. }
  destruct (Rlt_dec (magnitude _) 0.1); [exact H |].
  destruct (Rlt_dec (dot _ _) 0); cbn [virtual_cursor set_virtual_cursor].
  - apply deque_append_length. simpl. lia.
  - now apply deque_append_length.
Qed.

(** The history never holds more than three entries. *)
Theorem add_virtual_cursor_bounded (w : World) (cursor_pos : Vec) :
  (List.length (virtual_cursor w) <= 3)%nat ->
  (List.length (virtual_cursor (add_virtual_cursor w cursor_pos)) <= 3)%nat.
Proof. apply add_virtual_cursor_length_le. Qed.

Lemma add_virtual_cursor_bounded_witness :
  (List.length
     (virtual_cursor
        (add_virtual_cursor
           (sample_world (unit_grid None) [vzero; mkVec 1 0 0; mkVec 2 0 0]
                         (mkBMesh [] []) no_hit)
           (mkVec 3 0 0))) <= 3)%nat.
Proof.
  apply add_virtual_cursor_bounded. simpl. lia.
Defined.

(** A sample closer than 0.1 to the newest entry is ignored. *)
Theorem add_virtual_cursor_ignores_small_motion (w : World) (cursor_pos last_pos : Vec)
    (hist : list Vec) :
  virtual_cursor w = hist ++ [last_pos] ->
  magnitude (cursor_pos -v last_pos) < 0.1 ->
  add_virtual_cursor w cursor_pos = w.
Proof.
  intros Hh Hm. unfold add_virtual_cursor.
  rewrite Hh, length_app_nonzero, nth_last_app.
  now rewrite if_Rlt_true by assumption.
Qed.

Lemma add_virtual_cursor_ignores_small_motion_witness :
  add_virtual_cursor
    (sample_world (unit_grid None) [vzero; mkVec 1 0 0] (mkBMesh [] []) no_hit)
    (mkVec 1 0 0)
  = sample_world (unit_grid None) [vzero; mkVec 1 0 0] (mkBMesh [] []) no_hit.
Proof.
  apply (add_virtual_cursor_ignores_small_motion _ _ (mkVec 1 0 0) [vzero]).
  - reflexivity.
  - rewrite (magnitude_eq _ 0); [lra | lra |]. unfold dot; simpl; lra.
Defined.

(** A sample that moves against the averaged direction restarts the
    history with that sample alone. *)
Theorem add_virtual_cursor_resets_on_reversal (w : World) (cursor_pos last_pos : Vec)
    (hist : list Vec) :
  virtual_cursor w = hist ++ [last_pos] ->
  ~ magnitude (cursor_pos -v last_pos) < 0.1 ->
  dot (get_virtual_cursor_vector w) (cursor_pos -v last_pos) < 0 ->
  virtual_cursor (add_virtual_cursor w cursor_pos) = [cursor_pos].
Proof.
  intros Hh Hm Hd. unfold add_virtual_cursor.
  rewrite Hh, length_app_nonzero, nth_last_app.
  rewrite if_Rlt_false by assumption.
  rewrite if_Rlt_true by assumption. reflexivity.
Qed.

Lemma add_virtual_cursor_resets_on_reversal_witness :
  virtual_cursor
    (add_virtual_cursor
       (sample_world (unit_grid None) [vzero; mkVec 1 0 0] (mkBMesh [] []) no_hit)
       vzero)
  = [vzero].
Proof.
  apply (add_virtual_cursor_resets_on_reversal _ _ (mkVec 1 0 0) [vzero]).
  - reflexivity.
  - rewrite (magnitude_eq _ 1); [lra | lra |]. unfold dot; simpl; lra.
  - unfold get_virtual_cursor_vector. simpl. unfold dot. simpl. lra.
Defined.

(** A sample that moves on with the averaged direction is appended,
    and the oldest entry leaves when three are already held. *)
Theorem add_virtual_cursor_appends_forward (w : World) (cursor_pos last_pos : Vec)
    (hist : list Vec) :
  virtual_cursor w = hist ++ [last_pos] ->
  ~ magnitude (cursor_pos -v last_pos) < 0.1 ->
  ~ dot (get_virtual_cursor_vector w) (cursor_pos -v last_pos) < 0 ->
  ((List.length hist < 2)%nat ->
   virtual_cursor (add_virtual_cursor w cursor_pos) = hist ++ [last_pos; cursor_pos]) /\
  (List.length hist = 2%nat ->
   virtual_cursor (add_virtual_cursor w cursor_pos) = tl hist ++ [last_pos; cursor_pos]).
Proof.
  intros Hh Hm Hd. unfold add_virtual_cursor.
  rewrite Hh, length_app_nonzero, nth_last_app.
  rewrite if_Rlt_false by assumption.
  rewrite if_Rlt_false by assumption.
  cbn [virtual_cursor set_virtual_cursor]. rewrite Hh. unfold deque_append.
  split; intros Hl.
  - destruct hist as [| a [| b t]]; simpl in Hl; try lia; reflexivity.
  - destruct hist as [| a [| b [| c t]]]; simpl in Hl; try lia; reflexivity.
Qed.

Lemma add_virtual_cursor_appends_forward_witness :
  virtual_cursor
    (add_virtual_cursor
       (sample_world (unit_grid None) [vzero; mkVec 1 0 0; mkVec 2 0 0]
                     (mkBMesh [] []) no_hit)
       (mkVec 3 0 0))
  = [mkVec 1 0 0; mkVec 2 0 0; mkVec 3 0 0].
Proof.
  apply (add_virtual_cursor_appends_forward
           (sample_world (unit_grid None) [vzero; mkVec 1 0 0; mkVec 2 0 0]
                         (mkBMesh [] []) no_hit)
           (mkVec 3 0 0) (mkVec 2 0 0) [vzero; mkVec 1 0 0]).
  - reflexivity.
  - rewrite (magnitude_eq _ 1); [lra | lra |]. unfold dot; simpl; lra.
  - unfold get_virtual_cursor_vector. simpl. unfold dot. simpl. lra.
  - reflexivity.
Defined.

Lemma consecutive_differences_snoc (l : list Vec) (a b : Vec) :
  consecutive_differences (l ++ [a; b])
  = consecutive_differences (l ++ [a]) ++ [b -v a].
Proof.
  induction l as [| x t IH]; [reflexivity |].
  destruct t as [| y t']; [reflexivity |].
  cbn [app] in *.
  change (consecutive_differences (x :: y :: t' ++ [a; b]))
    with ((y -v x) :: consecutive_differences (y :: t' ++ [a; b])).
  change (consecutive_differences (x :: y :: t' ++ [a]))
    with ((y -v x) :: consecutive_differences (y :: t' ++ [a])).
  rewrite IH. reflexivity.
Qed.

Lemma well_spaced_tl (l : list Vec) : well_spaced l -> well_spaced (tl l).
Proof.
  unfold well_spaced. destruct l as [| a [| b t]]; simpl; auto.
  intros H. now inversion H.
Qed.

Lemma well_spaced_snoc (l : list Vec) (a b : Vec) :
  well_spaced (l ++ [a]) -> ~ magnitude (b -v a) < 0.1 -> well_spaced (l ++ [a; b]).
Proof.
  unfold well_spaced. intros H Hm. rewrite consecutive_differences_snoc.
  apply Forall_app. split; [exact H |]. constructor; [exact Hm | constructor].
Qed.

Lemma add_virtual_cursor_spacing (w : World) (cursor_pos : Vec) :
  well_spaced (virtual_cursor w) ->
  well_spaced (virtual_cursor (add_virtual_cursor w cursor_pos)).
Proof.
  intros H. unfold add_virtual_cursor.
  destruct (virtual_cursor w) as [| a l] eqn:Hvc.
  { cbn. constructor. }
  destruct (@exists_last _ (a :: l)) as (t & x & E); [discriminate |].
  rewrite E in *. clear E.
  rewrite length_app_nonzero, nth_last_app.
  destruct (Rlt_dec (magnitude _) 0.1) as [Hm | Hm]; [now rewrite Hvc |].
  destruct (Rlt_dec (dot _ _) 0); cbn [virtual_cursor set_virtual_cursor].
  - constructor.
  - rewrite Hvc. unfold deque_append. rewrite <- app_assoc. cbn [app].
    assert (Hs : well_spaced (t ++ [x; cursor_pos])) by now apply well_spaced_snoc.
    destruct (3 <? _)%nat; [now apply well_spaced_tl | exact Hs].
Qed.

(** Neighbours of the history are never closer than 0.1: every call
    of [add_virtual_cursor] keeps that. *)
Theorem add_virtual_cursor_well_spaced (w : World) (cursor_pos : Vec) :
  well_spaced (virtual_cursor w) ->
  well_spaced (virtual_cursor (add_virtual_cursor w cursor_pos)).
Proof. apply add_virtual_cursor_spacing. Qed.

Lemma add_virtual_cursor_well_spaced_witness :
  well_spaced
    (virtual_cursor
       (add_virtual_cursor
          (sample_world (unit_grid None) [vzero] (mkBMesh [] []) no_hit)
          (mkVec 1 0 0))).
Proof.
  apply add_virtual_cursor_well_spaced. constructor.
Defined.

(** ** Axis snapper and grid math *)

(** Whatever the input, the snapper answers with one of the six signed
    world axes. *)
Theorem snap_vector_to_axis_signed_axis (vector : Vec) (mirrored : bool) :
  In (snap_vector_to_axis vector mirrored) signed_axes.
Proof.
  unfold snap_vector_to_axis, signed_axes, axis_x, axis_y, axis_z.
  rewrite min_index3.
  destruct (Rlt_dec (1 - Rabs (dot (normalized vector) (mkVec 0 1 0)))
                    (1 - Rabs (dot (normalized vector) (mkVec 1 0 0))));
    [destruct (Rlt_dec (1 - Rabs (dot (normalized vector) (mkVec 0 0 1)))
                       (1 - Rabs (dot (normalized vector) (mkVec 0 1 0))))
    | destruct (Rlt_dec (1 - Rabs (dot (normalized vector) (mkVec 0 0 1)))
                        (1 - Rabs (dot (normalized vector) (mkVec 1 0 0))))];
    cbn [Nat.eqb];
    destruct mirrored; cbn [negb andb];
    repeat match goal with
           | |- context [Rlt_dec ?a ?b] => destruct (Rlt_dec a b)
           end;
    cbn [In]; tauto.
Qed.

(** The snap raises [ZeroDivisionError] exactly when the pixel scale
    or one of the cell sizes is zero, and returns otherwise. *)
Theorem get_grid_pos_raises_iff (position grid_center right_vector up_vector : Vec)
    (world_pixels grid_x grid_y : Z) :
  match get_grid_pos position grid_center right_vector up_vector
                     world_pixels grid_x grid_y with
  | Ok _ => world_pixels <> 0%Z /\ grid_x <> 0%Z /\ grid_y <> 0%Z
  | Raise e => e = ZeroDivisionError /\
               (world_pixels = 0%Z \/ grid_x = 0%Z \/ grid_y = 0%Z)
  end.
Proof.
  unfold get_grid_pos.
  destruct (Z.eq_dec world_pixels 0) as [-> | Hw].
  { unfold py_div at 1. rewrite if_Req_true by reflexivity. cbn [bind]. auto. }
  assert (Hw' : IZR world_pixels <> 0) by now apply not_0_IZR.
  rewrite !(py_div_ok _ (IZR world_pixels)) by assumption. cbn [bind].
  destruct (Z.eq_dec grid_x 0) as [-> | Hx].
  { unfold py_div at 1. rewrite if_Req_true by (unfold Rdiv; ring). cbn [bind]. auto. }
  assert (Hx' : IZR grid_x / IZR world_pixels <> 0).
  { apply Rmult_integral_contrapositive. split; [now apply not_0_IZR |].
    now apply Rinv_neq_0_compat. }
  rewrite (py_div_ok _ (IZR grid_x / IZR world_pixels)) by assumption. cbn [bind].
  destruct (Z.eq_dec grid_y 0) as [-> | Hy].
  { unfold py_div at 1. rewrite if_Req_true by (unfold Rdiv; ring). cbn [bind]. auto. }
  assert (Hy' : IZR grid_y / IZR world_pixels <> 0).
  { apply Rmult_integral_contrapositive. split; [now apply not_0_IZR |].
    now apply Rinv_neq_0_compat. }
  rewrite (py_div_ok _ (IZR grid_y / IZR world_pixels)) by assumption. cbn [bind].
  auto.
Qed.

(** ** Painting basis and view axis *)

Lemma normalized_is_unit (v : Vec) :
  v <> vzero -> dot (normalized v) (normalized v) = 1.
Proof.
  intros Hv. unfold normalized.
  assert (Hm : magnitude v <> 0) by (intros E; apply Hv; now apply magnitude_zero).
  rewrite if_Req_false by assumption.
  assert (Hs : magnitude v * magnitude v = dot v v)
    by (unfold magnitude; apply sqrt_sqrt, dot_self_nonneg).
  replace (dot (v *v / magnitude v) (v *v / magnitude v))
    with (dot v v * (/ magnitude v * / magnitude v)) by (unfold dot; simpl; ring).
  rewrite <- Hs. field. exact Hm.
Qed.

Lemma dot_normalized_zero (a b : Vec) :
  dot a b = 0 -> dot (normalized a) (normalized b) = 0.
Proof.
  intros H. destruct (normalized_scale a) as (k & _ & -> & _).
  destruct (normalized_scale b) as (l & _ & -> & _).
  replace (dot (a *v k) (b *v l)) with (k * l * dot a b) by (unfold dot; simpl; ring).
  rewrite H. ring.
Qed.

Lemma cross_orthonormal (u n : Vec) :
  dot u u = 1 -> dot n n = 1 -> dot u n = 0 ->
  dot (cross u n) (cross u n) = 1 /\ dot (cross u n) u = 0 /\ dot (cross u n) n = 0.
Proof.
  intros Hu Hn Hun.
  assert (L : dot (cross u n) (cross u n) = dot u u * dot n n - dot u n * dot u n)
    by (unfold dot, cross; simpl; ring).
  rewrite L, Hu, Hn, Hun.
  repeat split; [ring | unfold dot, cross; simpl; ring | unfold dot, cross; simpl; ring].
Qed.

(** From a stored normal and up that are non-zero and at a right
    angle, the tool works with an orthonormal basis up, right, normal. *)
Theorem get_current_grid_vectors_orthonormal (s : Scene) :
  paint_normal_vector (sprytile_data s) <> vzero ->
  paint_up_vector (sprytile_data s) <> vzero ->
  dot (paint_normal_vector (sprytile_data s)) (paint_up_vector (sprytile_data s)) = 0 ->
  orthonormal (fst (fst (get_current_grid_vectors s)))
              (snd (fst (get_current_grid_vectors s)))
              (snd (get_current_grid_vectors s)).
Proof.
  intros Hn Hu Hd. unfold get_current_grid_vectors. cbn [fst snd].
  set (n := normalized (paint_normal_vector (sprytile_data s))).
  set (u := normalized (paint_up_vector (sprytile_data s))).
  assert (Hnn : dot n n = 1) by now apply normalized_is_unit.
  assert (Huu : dot u u = 1) by now apply normalized_is_unit.
  assert (Hun : dot u n = 0).
  { apply dot_normalized_zero. now rewrite dot_comm. }
  destruct (cross_orthonormal u n Huu Hnn Hun) as (H1 & H2 & H3).
  unfold orthonormal. auto 10.
Qed.

Lemma get_current_grid_vectors_orthonormal_witness :
  orthonormal
    (fst (fst (get_current_grid_vectors (mkScene vzero (mkData 1 axis_z axis_y false) []))))
    (snd (fst (get_current_grid_vectors (mkScene vzero (mkData 1 axis_z axis_y false) []))))
    (snd (get_current_grid_vectors (mkScene vzero (mkData 1 axis_z axis_y false) []))).
Proof.
  apply get_current_grid_vectors_orthonormal; cbn.
  - intros H. injection H. lra.
  - intros H. injection H. lra.
  - rcalc.
Defined.

Lemma signed_axis_cases (v : Vec) :
  In v signed_axes ->
  v = axis_x \/ v = axis_x *v (-1) \/ v = axis_y \/ v = axis_y *v (-1) \/
  v = axis_z \/ v = axis_z *v (-1).
Proof.
  unfold signed_axes. cbn [In]. intuition auto.
Qed.

Lemma signed_axis_nonzero (v : Vec) : In v signed_axes -> v <> vzero.
Proof.
  intros H E. subst v. apply signed_axis_cases in H.
  unfold axis_x, axis_y, axis_z, vscale, vzero in H. cbn in H.
  destruct H as [H | [H | [H | [H | [H | H]]]]]; injection H; intros; lra.
Qed.

Lemma find_view_axis_axes (s : Session) (view_vector view_up_vector : Vec) :
  perpendicular_axes (sprytile_data (scene (world s))) ->
  perpendicular_axes
    (sprytile_data (scene (world (find_view_axis s view_vector view_up_vector)))).
Proof.
  intros H. unfold find_view_axis.
  destruct (lock_normal s); [exact H |].
  destruct (Req_dec_T _ 0) as [E | E]; [| exact H].
  cbn [world set_normal_mode set_world].
  destruct (NormalMode_eqb _ _);
    unfold perpendicular_axes;
    cbn [set_virtual_cursor set_paint_vectors scene sprytile_data
         paint_normal_vector paint_up_vector];
    repeat split; auto using snap_vector_to_axis_signed_axis.
Qed.

(** [find_view_axis] never stores anything but two signed world axes
    at a right angle: if the stored pair is one before the call, it is
    one after, whatever the view. *)
Theorem find_view_axis_keeps_perpendicular_axes (s : Session)
    (view_vector view_up_vector : Vec) :
  perpendicular_axes (sprytile_data (scene (world s))) ->
  perpendicular_axes
    (sprytile_data (scene (world (find_view_axis s view_vector view_up_vector)))).
Proof. apply find_view_axis_axes. Qed.

Lemma find_view_axis_keeps_perpendicular_axes_witness :
  perpendicular_axes
    (sprytile_data
       (scene
          (world
             (find_view_axis
                (sample_session
                   (sample_world (unit_grid None) [] (mkBMesh [] []) no_hit)
                   PAINT GRID)
                (mkVec 1 0 0) (mkVec 0 1 0))))).
Proof.
  apply find_view_axis_keeps_perpendicular_axes.
  unfold perpendicular_axes, signed_axes. cbn.
  repeat split; [tauto | tauto | rcalc].
Defined.

Lemma NormalMode_eqb_eq (a b : NormalMode) : NormalMode_eqb a b = true <-> a = b.
Proof. destruct a, b; simpl; split; intros H; try discriminate; reflexivity. Qed.

Lemma Rabs_pos_iff (x : R) : 0 < Rabs x <-> x <> 0.
Proof.
  split.
  - intros H E. subst x. rewrite Rabs_R0 in H. lra.
  - apply Rabs_pos_lt.
Qed.

Lemma snap_x_mirrored : snap_vector_to_axis (mkVec 1 0 0) true = axis_x *v (-1).
Proof.
  unfold snap_vector_to_axis. rewrite normalized_unit by rcalc. rewrite min_index3.
  replace (dot (mkVec 1 0 0) (mkVec 1 0 0)) with 1 by rcalc.
  replace (dot (mkVec 1 0 0) (mkVec 0 1 0)) with 0 by rcalc.
  replace (dot (mkVec 1 0 0) (mkVec 0 0 1)) with 0 by rcalc.
  rewrite Rabs_R0, Rabs_R1.
  rewrite !(if_Rlt_false _ (1 - 0) (1 - 1)) by lra. cbn [Nat.eqb negb andb].
  replace (dot (mkVec 1 0 0) (mkVec 1 0 0)) with 1 by rcalc.
  rewrite (if_Rlt_true _ 0 1) by lra. reflexivity.
Qed.

Lemma snap_y_plain : snap_vector_to_axis (mkVec 0 1 0) false = axis_y.
Proof.
  unfold snap_vector_to_axis. rewrite normalized_unit by rcalc. rewrite min_index3.
  replace (dot (mkVec 0 1 0) (mkVec 1 0 0)) with 0 by rcalc.
  replace (dot (mkVec 0 1 0) (mkVec 0 1 0)) with 1 by rcalc.
  replace (dot (mkVec 0 1 0) (mkVec 0 0 1)) with 0 by rcalc.
  rewrite Rabs_R0, Rabs_R1.
  rewrite (if_Rlt_true _ (1 - 1) (1 - 0)) by lra.
  rewrite (if_Rlt_false _ (1 - 0) (1 - 1)) by lra. cbn [Nat.eqb negb andb].
  replace (dot (mkVec 0 1 0) (mkVec 0 1 0)) with 1 by rcalc.
  rewrite (if_Rlt_false _ 1 0) by lra. reflexivity.
Qed.

(** [find_view_axis] and the history: the history is emptied whenever
    the call changes [normal_mode] and is kept whenever it does not;
    a [normal_mode] that names the axis of the stored normal keeps
    doing so; the mesh and the reference cursor are not touched. *)
Theorem find_view_axis_mode_and_history (s : Session)
    (view_vector view_up_vector : Vec) :
  let s' := find_view_axis s view_vector view_up_vector in
  (normal_mode s' <> normal_mode s -> virtual_cursor (world s') = []) /\
  (normal_mode s' = normal_mode s ->
   virtual_cursor (world s') = virtual_cursor (world s)) /\
  (normal_mode s = mode_of_normal (paint_normal_vector (sprytile_data (scene (world s)))) ->
   normal_mode s'
   = mode_of_normal (paint_normal_vector (sprytile_data (scene (world s'))))) /\
  bmesh (world s') = bmesh (world s) /\
  cursor_location (scene (world s')) = cursor_location (scene (world s)).
Proof.
  cbv zeta. unfold find_view_axis.
  destruct (lock_normal s); [tauto |].
  destruct (Req_dec_T _ 0) as [E | E]; [| tauto].
  set (n := snap_vector_to_axis view_vector true).
  set (u := snap_vector_to_axis view_up_vector false).
  set (new_mode := if Rlt_dec 0 (Rabs (vx n)) then ModeX
                   else if Rlt_dec 0 (Rabs (vy n)) then ModeY else ModeZ).
  assert (Hm : new_mode = mode_of_normal n).
  { unfold new_mode, mode_of_normal.
    destruct (Rlt_dec 0 (Rabs (vx n))) as [H | H]; rewrite Rabs_pos_iff in H.
    - now rewrite if_Req_false.
    - rewrite if_Req_true by (destruct (Req_dec_T (vx n) 0); tauto).
      destruct (Rlt_dec 0 (Rabs (vy n))) as [H' | H']; rewrite Rabs_pos_iff in H'.
      + now rewrite if_Req_false.
      + now rewrite if_Req_true by (destruct (Req_dec_T (vy n) 0); tauto). }
  cbn [world set_normal_mode set_world normal_mode].
  destruct (NormalMode_eqb new_mode (normal_mode s)) eqn:Eq.
  - apply NormalMode_eqb_eq in Eq.
    cbn [set_paint_vectors virtual_cursor bmesh scene cursor_location sprytile_data
         paint_normal_vector].
    repeat split; auto. intros H. contradiction.
  - assert (Hne : new_mode <> normal_mode s).
    { intros H. apply NormalMode_eqb_eq in H. congruence. }
    cbn [set_paint_vectors set_virtual_cursor virtual_cursor bmesh scene
         cursor_location sprytile_data paint_normal_vector].
    repeat split; auto. intros H. contradiction.
Qed.

Lemma find_view_axis_mode_and_history_witness :
  virtual_cursor
    (world
       (find_view_axis
          (sample_session
             (sample_world (unit_grid None) [vzero; mkVec 1 0 0] (mkBMesh [] []) no_hit)
             PAINT GRID)
          (mkVec 1 0 0) (mkVec 0 1 0)))
  = [].
Proof.
  apply (proj1 (find_view_axis_mode_and_history
                  (sample_session
                     (sample_world (unit_grid None) [vzero; mkVec 1 0 0]
                                   (mkBMesh [] []) no_hit)
                     PAINT GRID)
                  (mkVec 1 0 0) (mkVec 0 1 0))).
  unfold find_view_axis. cbn [sample_session lock_normal normal_mode].
  rewrite snap_x_mirrored, snap_y_plain.
  rewrite if_Req_true by rcalc.
  cbn [set_normal_mode normal_mode].
  rewrite if_Rlt_true; [discriminate |].
  unfold axis_x. cbn [vscale vx]. rewrite (Rabs_value _ 1) by lra. lra.
Defined.

(** ** Cursor snapping *)

Lemma nearest_step_some (mesh : BMesh) (loc : Vec) (i0 i : Z) (d0 : R) (x : nat) :
  nearest_step mesh loc (i0, Some d0) (i, x)
  = if Rlt_dec (magnitude (loc -v co mesh x)) d0
    then (i, Some (magnitude (loc -v co mesh x))) else (i0, Some d0).
Proof. reflexivity. Qed.

Lemma nearest_step_none (mesh : BMesh) (loc : Vec) (i0 i : Z) (x : nat) :
  nearest_step mesh loc (i0, None) (i, x) = (i, Some (magnitude (loc -v co mesh x))).
Proof. reflexivity. Qed.

Lemma nearest_fold (mesh : BMesh) (loc : Vec) (l : list nat) :
  forall (k : nat) (i0 : Z) (d0 : R),
    let r := fold_left (nearest_step mesh loc)
                       (combine (map Z.of_nat (seq k (List.length l))) l)
                       (i0, Some d0) in
    exists dmin : R,
      snd r = Some dmin /\ dmin <= d0 /\
      (forall v, In v l -> dmin <= magnitude (loc -v co mesh v)) /\
      ((fst r = i0 /\ dmin = d0) \/
       (exists (j : nat) (v : nat),
           fst r = Z.of_nat (k + j) /\ nth_error l j = Some v /\
           dmin = magnitude (loc -v co mesh v))).
Proof.
  induction l as [| x t IH]; intros k i0 d0.
  - cbn. exists d0. repeat split; auto; try lra. intros v [].
  - cbn [List.length seq map combine fold_left].
    rewrite nearest_step_some.
    destruct (Rlt_dec (magnitude (loc -v co mesh x)) d0) as [Hlt | Hge].
    + destruct (IH (S k) (Z.of_nat k) (magnitude (loc -v co mesh x)))
        as (dmin & Hs & Hle & Hall & Hwho).
      exists dmin. split; [exact Hs |]. split; [lra |]. split.
      * intros v [-> | Hv]; [exact Hle | now apply Hall].
      * right. destruct Hwho as [[Hi Hd] | (j & v & Hi & Hj & Hd)].
        -- exists 0%nat, x. rewrite Nat.add_0_r. auto.
        -- exists (S j), v. replace (k + S j)%nat with (S k + j)%nat by lia. auto.
    + destruct (IH (S k) i0 d0) as (dmin & Hs & Hle & Hall & Hwho).
      exists dmin. split; [exact Hs |]. split; [exact Hle |]. split.
      * intros v [-> | Hv]; [lra | now apply Hall].
      * destruct Hwho as [Hsame | (j & v & Hi & Hj & Hd)]; [left; exact Hsame |].
        right. exists (S j), v. replace (k + S j)%nat with (S k + j)%nat by lia. auto.
Qed.

(** In vertex mode, when the ray hits and the nearest point lies on a
    face, the reference cursor goes to the world position of a vertex
    of that face that is nearest to the point: no vertex of the face is
    closer. *)
Theorem cursor_snap_vertex_nearest (s : Session) (find_nearest : Vec -> option Hit)
    (ray_origin ray_vector : Vec) (h near : Hit) (matrix_inv : Matrix) (face : Face) :
  tree_released s = false -> gui_use_mouse s = false ->
  cursor_snap_mode s = VERTEX ->
  raycast_object (world s) ray_origin ray_vector = Ok (Some h) ->
  inverted (matrix_world (object (world s))) = Ok matrix_inv ->
  find_nearest (mat_apply matrix_inv (hit_location h)) = Some near ->
  nth_error (faces (bmesh (world s))) (hit_face near) = Some face ->
  face_verts face <> [] ->
  exists vtx : nat,
    In vtx (face_verts face) /\
    (forall v, In v (face_verts face) ->
               magnitude (hit_location near -v co (bmesh (world s)) vtx)
               <= magnitude (hit_location near -v co (bmesh (world s)) v)) /\
    cursor_snap s find_nearest ray_origin ray_vector
    = Ok (set_world s
            (set_cursor_location (world s)
               (mat_apply (matrix_world (object (world s)))
                          (co (bmesh (world s)) vtx)))).
Proof.
  intros Ht Hg Hmode Hray Hinv Hnear Hface Hne.
  unfold cursor_snap. rewrite Ht, Hg, Hmode. cbn [orb].
  unfold get_current_grid_vectors.
  rewrite Hray. cbn [bind]. rewrite Hinv. cbn [bind]. rewrite Hnear.
  unfold py_index at 1. rewrite Hface. cbn [bind].
  destruct (face_verts face) as [| x t] eqn:Hv; [contradiction |].
  unfold enumerate. cbn [List.length seq map combine fold_left].
  rewrite nearest_step_none.
  destruct (nearest_fold (bmesh (world s)) (hit_location near) t 1 0%Z
              (magnitude (hit_location near -v co (bmesh (world s)) x)))
    as (dmin & Hs & Hle & Hall & Hwho).
  destruct (fold_left _ _ _) as [closest_vtx closest_dist].
  cbn [fst snd] in *.
  destruct Hwho as [[Hi Hd] | (j & v & Hi & Hj & Hd)].
  - subst closest_vtx. exists x. split; [left; reflexivity |]. split.
    + intros v [-> | Hin]; [lra |]. specialize (Hall v Hin). lra.
    + reflexivity.
  - subst closest_vtx. exists v. split; [right; eapply nth_error_In; eauto |]. split.
    + intros v' [<- | Hin]; [lra |]. specialize (Hall v' Hin). lra.
    + replace (Z.of_nat (1 + j) =? -1)%Z with false by (symmetry; apply Z.eqb_neq; lia).
      rewrite Nat2Z.id. unfold py_index. cbn [Nat.add nth_error]. rewrite Hj.
      reflexivity.
Qed.

Lemma cursor_snap_vertex_nearest_witness :
  let w := sample_world (unit_grid None) []
             (triangle vzero (mkVec 1 0 0) (mkVec 0 1 0))
             (always_hit (mkHit (mkVec 0.25 0.25 0) axis_z 0 1)) in
  let s := sample_session w PAINT VERTEX in
  let nearest := fun _ : Vec => Some (mkHit (mkVec 0.25 0.25 0) axis_z 0 0) in
  exists vtx : nat,
    In vtx [0%nat; 1%nat; 2%nat] /\
    (forall v, In v [0%nat; 1%nat; 2%nat] ->
               magnitude (mkVec 0.25 0.25 0 -v co (bmesh w) vtx)
               <= magnitude (mkVec 0.25 0.25 0 -v co (bmesh w) v)) /\
    cursor_snap s nearest (mkVec 0.25 0.25 1) (mkVec 0 0 (-1))
    = Ok (set_world s
            (set_cursor_location w (mat_apply identity_matrix (co (bmesh w) vtx)))).
Proof.
  cbv zeta.
  apply (cursor_snap_vertex_nearest
           (sample_session
              (sample_world (unit_grid None) []
                 (triangle vzero (mkVec 1 0 0) (mkVec 0 1 0))
                 (always_hit (mkHit (mkVec 0.25 0.25 0) axis_z 0 1)))
              PAINT VERTEX)
           (fun _ : Vec => Some (mkHit (mkVec 0.25 0.25 0) axis_z 0 0))
           (mkVec 0.25 0.25 1) (mkVec 0 0 (-1))
           (mkHit (mkVec 0.25 0.25 0) axis_z 0 1)
           (mkHit (mkVec 0.25 0.25 0) axis_z 0 0)
           identity_matrix
           (mkFace [mkLoop 0 (0, 0); mkLoop 1 (0, 0); mkLoop 2 (0, 0)] 0%Z)).
  - reflexivity.
  - reflexivity.
  - reflexivity.
  - apply sample_raycast.
  - apply inverted_identity.
  - reflexivity.
  - reflexivity.
  - discriminate.
Defined.

Lemma get_grid_pos_span (position grid_center right_vector up_vector : Vec)
    (world_pixels grid_x grid_y : Z) (grid_pos x_vector y_vector : Vec) :
  get_grid_pos position grid_center right_vector up_vector
               world_pixels grid_x grid_y = Ok (grid_pos, x_vector, y_vector) ->
  exists a b : R, grid_pos = grid_center +v right_vector *v a +v up_vector *v b.
Proof.
  unfold get_grid_pos. intros H.
  destruct (py_div (IZR grid_x) _) as [xu |]; [| discriminate]. cbn [bind] in H.
  destruct (py_div (IZR grid_y) _) as [yu |]; [| discriminate]. cbn [bind] in H.
  destruct (py_div _ xu) as [qx |]; [| discriminate]. cbn [bind] in H.
  destruct (py_div _ yu) as [qy |]; [| discriminate]. cbn [bind] in H.
  injection H as <- _ _.
  destruct (Rlt_dec (dot right_vector _) 0), (Rlt_dec (dot up_vector _) 0).
  - exists (- xu * IZR (floor qx)), (- yu * IZR (floor qy)). apply vec_eq; simpl; ring.
  - exists (- xu * IZR (floor qx)), (yu * IZR (floor qy)). apply vec_eq; simpl; ring.
  - exists (xu * IZR (floor qx)), (- yu * IZR (floor qy)). apply vec_eq; simpl; ring.
  - exists (xu * IZR (floor qx)), (yu * IZR (floor qy)). apply vec_eq; simpl; ring.
Qed.

(** Grid snapping moves the reference cursor inside the painting
    plane: with a stored normal and up at a right angle, the cursor
    after [cursor_snap] in grid mode differs from the cursor before by
    a vector perpendicular to the plane normal, and neither the mesh
    nor the history changes. *)
Theorem cursor_snap_grid_stays_in_plane (s s' : Session)
    (find_nearest : Vec -> option Hit) (ray_origin ray_vector : Vec) :
  cursor_snap_mode s = GRID ->
  dot (paint_normal_vector (sprytile_data (scene (world s))))
      (paint_up_vector (sprytile_data (scene (world s)))) = 0 ->
  cursor_snap s find_nearest ray_origin ray_vector = Ok s' ->
  dot (cursor_location (scene (world s')) -v cursor_location (scene (world s)))
      (normalized (paint_normal_vector (sprytile_data (scene (world s))))) = 0 /\
  bmesh (world s') = bmesh (world s) /\
  virtual_cursor (world s') = virtual_cursor (world s).
Proof.
  intros Hmode Hperp H.
  assert (Hsame : forall n, dot (cursor_location (scene (world s))
                                 -v cursor_location (scene (world s))) n = 0).
  { intros n. unfold dot; simpl; ring. }
  unfold cursor_snap in H. rewrite Hmode in H.
  destruct (tree_released s || gui_use_mouse s).
  { injection H as <-. auto. }
  unfold get_current_grid_vectors in H.
  set (n := normalized (paint_normal_vector (sprytile_data (scene (world s))))) in *.
  set (u := normalized (paint_up_vector (sprytile_data (scene (world s))))) in *.
  destruct (intersect_line_plane _ _ _ n) as [location |].
  2:{ injection H as <-. auto. }
  destruct (py_index _ _) as [target_grid |]; [| discriminate]. cbn [bind] in H.
  destruct (get_grid_pos _ _ _ _ _ _ _) as [[[g x] y] |] eqn:E; [| discriminate].
  cbn [bind] in H. injection H as <-.
  cbn [world set_world set_cursor_location scene cursor_location bmesh virtual_cursor].
  split; [| auto].
  destruct (get_grid_pos_span _ _ _ _ _ _ _ _ _ _ E) as (a & b & ->).
  assert (Hun : dot u n = 0).
  { apply dot_normalized_zero. now rewrite dot_comm. }
  replace (dot (cursor_location (scene (world s)) +v cross u n *v a +v u *v b
                -v cursor_location (scene (world s))) n)
    with (a * dot (cross u n) n + b * dot u n) by (unfold dot; simpl; ring).
  rewrite Hun. replace (dot (cross u n) n) with 0 by (unfold dot, cross; simpl; ring).
  ring.
Qed.

Lemma next_cell_plane_point :
  intersect_line_plane (mkVec 1.25 0.25 1) (mkVec 1.25 0.25 1 +v mkVec 0 0 (-1))
                       vzero axis_z
  = Some (mkVec 1.25 0.25 0).
Proof.
  unfold intersect_line_plane. rewrite if_Req_false by rcalc. f_equal. vcalc.
Qed.

Lemma next_cell_grid_pos :
  get_grid_pos (mkVec 1.25 0.25 0) vzero axis_x axis_y 1 1 1
  = Ok (mkVec 1 0 0, axis_x, axis_y).
Proof.
  unfold get_grid_pos.
  rewrite (if_Rlt_false _ (dot axis_x _)) by (apply dot_normalized_nonneg; rcalc).
  rewrite (if_Rlt_false _ (dot axis_y _)) by (apply dot_normalized_nonneg; rcalc).
  rewrite !(py_div_ok _ 1) by lra. simpl bind.
  rewrite !py_div_ok by lra. simpl bind.
  rewrite (floor_between _ 1) by rcalc.
  rewrite (floor_between _ 0) by rcalc.
  apply ok3_eq; vcalc.
Qed.

Lemma cursor_snap_grid_stays_in_plane_witness :
  let w := sample_world (unit_grid None) [] (mkBMesh [] []) no_hit in
  let s := sample_session w PAINT GRID in
  let s' := set_world s (set_cursor_location w (mkVec 1 0 0)) in
  cursor_snap s (fun _ => None) (mkVec 1.25 0.25 1) (mkVec 0 0 (-1)) = Ok s' /\
  dot (mkVec 1 0 0 -v vzero)
      (normalized (paint_normal_vector (sprytile_data (scene (world s))))) = 0 /\
  bmesh (world s') = bmesh (world s) /\
  virtual_cursor (world s') = virtual_cursor (world s).
Proof.
  cbv zeta.
  assert (E : cursor_snap
                (sample_session
                   (sample_world (unit_grid None) [] (mkBMesh [] []) no_hit) PAINT GRID)
                (fun _ => None) (mkVec 1.25 0.25 1) (mkVec 0 0 (-1))
              = Ok (set_world
                      (sample_session
                         (sample_world (unit_grid None) [] (mkBMesh [] []) no_hit)
                         PAINT GRID)
                      (set_cursor_location
                         (sample_world (unit_grid None) [] (mkBMesh [] []) no_hit)
                         (mkVec 1 0 0)))).
  { unfold cursor_snap. cbn [sample_session tree_released gui_use_mouse orb
                              cursor_snap_mode world].
    rewrite sample_vectors.
    cbn [sample_world scene cursor_location sprytile_grids sprytile_data world_pixels
         object sprytile_gridid].
    rewrite next_cell_plane_point.
    change (py_index [unit_grid None] 0) with (Ok (unit_grid None)).
    cbn [bind unit_grid grid fst snd].
    rewrite next_cell_grid_pos. reflexivity. }
  split; [exact E |].
  refine (cursor_snap_grid_stays_in_plane
            (sample_session
               (sample_world (unit_grid None) [] (mkBMesh [] []) no_hit) PAINT GRID)
            _ _ _ _ eq_refl _ E).
  cbn. rcalc.
Defined.

(** ** The tool as a whole *)

Lemma flow_cursor_data (w w' : World) (face_index : nat) (p : Vec) :
  flow_cursor w face_index p = Ok w' ->
  sprytile_data (scene w') = sprytile_data (scene w).
Proof.
  unfold flow_cursor. intros H.
  destruct (List.length (virtual_cursor w) <=? 1)%nat.
  { now injection H as <-. }
  destruct (py_index (faces (bmesh w)) face_index); [| discriminate].
  cbn [bind] in H.
  destruct (fold_left _ _ _) as [idx pos].
  destruct (idx =? -1)%Z; injection H as <-; reflexivity.
Qed.

Lemma is_prefix_refl (A : Type) (l : list A) : is_prefix l l.
Proof. exists []. now rewrite app_nil_r. Qed.

Lemma is_prefix_trans (A : Type) (a b c : list A) :
  is_prefix a b -> is_prefix b c -> is_prefix a c.
Proof.
  intros [r1 ->] [r2 ->]. exists (r1 ++ r2). now rewrite app_assoc.
Qed.

Lemma geometry_kept_same (m m' : BMesh) :
  verts m' = verts m -> map face_verts (faces m') = map face_verts (faces m) ->
  geometry_kept m m'.
Proof.
  intros H1 H2. unfold geometry_kept. rewrite H1, H2.
  split; apply is_prefix_refl.
Qed.

Lemma execute_paint_frame (w w' : World) (ray_origin ray_vector : Vec) :
  execute_paint w ray_origin ray_vector = Ok w' ->
  sprytile_data (scene w') = sprytile_data (scene w) /\
  verts (bmesh w') = verts (bmesh w) /\
  map face_verts (faces (bmesh w')) = map face_verts (faces (bmesh w)) /\
  history_step w w'.
Proof.
  unfold execute_paint, get_current_grid_vectors. intros H.
  destruct (raycast_object w ray_origin ray_vector) as [[h |] |]; try discriminate.
  2:{ cbn [bind] in H. injection H as <-. repeat split. now left. }
  cbn [bind] in H.
  destruct (add_virtual_cursor_frame w (hit_location h)) as (Es & Eo & Em & Eb & Et).
  destruct (py_index _ _) as [g |]; [| discriminate]. cbn [bind] in H.
  destruct (uv_map_face _ _ _ _ _) as [[w1 ret] |] eqn:Euv; [| discriminate].
  cbn [bind] in H.
  destruct (uv_map_face_frame _ _ _ _ _ _ _ Euv) as (Es1 & _ & Ec1 & _ & Ev1 & Ef1 & _).
  destruct ret as [[face_index g'] |]; [| discriminate].
  assert (Hh : history_step w w1) by (right; exists (hit_location h); exact Ec1).
  destruct (-1 <? materials_find (materials w1) (mat_id g'))%Z.
  - unfold py_index in H.
    destruct (nth_error (faces (bmesh w1)) face_index) as [face |] eqn:Ef; [| discriminate].
    cbn [bind] in H. injection H as <-.
    cbn [scene set_bmesh bmesh verts faces virtual_cursor].
    rewrite Es1, Es, Ev1, Eb. repeat split; auto.
    rewrite (map_list_set _ _ face_verts _ _ face); [| exact Ef | reflexivity].
    now rewrite Ef1, Eb.
  - injection H as <-. rewrite Es1, Es, Ev1, Ef1, Eb. auto.
Qed.

Lemma build_face_frame (w w' : World) (position x_vector y_vector up_vector right_vector : Vec)
    (index : nat) :
  build_face w position x_vector y_vector up_vector right_vector = Ok (w', index) ->
  scene w' = scene w /\ object w' = object w /\
  virtual_cursor w' = virtual_cursor w /\
  index = List.length (faces (bmesh w)) /\
  exists (v1 v2 v3 v4 : Vec) (face : Face),
    verts (bmesh w') = verts (bmesh w) ++ [v1; v2; v3; v4] /\
    faces (bmesh w') = faces (bmesh w) ++ [face] /\
    tree w' = FromBMesh w (bmesh w').
Proof.
  unfold build_face. intros H.
  destruct (inverted _) as [matrix_inv |]; [| discriminate]. cbn [bind] in H.
  injection H as <- <-.
  cbn [scene object virtual_cursor bmesh tree set_tree set_bmesh verts faces FromBMesh].
  repeat split. do 5 eexists. repeat split.
Qed.

Lemma build_paint_over_frame (w w' : World) (up_vector right_vector : Vec)
    (tile_xy : Z * Z) (h : Hit) :
  build_paint_over w up_vector right_vector tile_xy h = Ok w' ->
  sprytile_data (scene w') = sprytile_data (scene w) /\
  verts (bmesh w') = verts (bmesh w) /\
  map face_verts (faces (bmesh w')) = map face_verts (faces (bmesh w)) /\
  history_step w w'.
Proof.
  unfold build_paint_over. intros H.
  destruct (add_virtual_cursor_frame w (hit_location h)) as (Es & Eo & Em & Eb & Et).
  destruct (uv_map_face _ _ _ _ _) as [[w1 ret] |] eqn:Euv; [| discriminate].
  cbn [bind] in H.
  destruct (uv_map_face_frame _ _ _ _ _ _ _ Euv) as (Es1 & _ & Ec1 & _ & Ev1 & Ef1 & _).
  assert (Hh : history_step w w1) by (right; exists (hit_location h); exact Ec1).
  destruct (cursor_flow _).
  - destruct (flow_cursor_frame _ _ _ _ H) as (Hb & Hc & _).
    rewrite (flow_cursor_data _ _ _ _ H), Hb, Es1, Es, Ev1, Ef1, Eb.
    repeat split. unfold history_step in *. now rewrite Hc.
  - injection H as <-. rewrite Es1, Es, Ev1, Ef1, Eb. auto.
Qed.

Lemma build_new_face_frame (w w' : World) (up_vector right_vector plane_normal : Vec)
    (tile_xy : Z * Z) (ray_origin ray_vector : Vec) :
  build_new_face w up_vector right_vector plane_normal tile_xy ray_origin ray_vector
    = Ok w' ->
  sprytile_data (scene w') = sprytile_data (scene w) /\
  history_step w w' /\
  ((verts (bmesh w') = verts (bmesh w) /\
    map face_verts (faces (bmesh w')) = map face_verts (faces (bmesh w))) \/
   (exists (v1 v2 v3 v4 : Vec) (f : list nat),
       verts (bmesh w') = verts (bmesh w) ++ [v1; v2; v3; v4] /\
       map face_verts (faces (bmesh w'))
       = map face_verts (faces (bmesh w)) ++ [f])).
Proof.
  unfold build_new_face. intros H.
  destruct (raycast_grid _ _ _ _ _ _ _) as [[[[[g x] y] plane_cursor] |] |];
    try discriminate; cbn [bind] in H.
  2:{ injection H as <-. repeat split; [now left | now left]. }
  destruct (add_virtual_cursor_frame w plane_cursor) as (Es & Eo & Em & Eb & Et).
  destruct (build_face _ _ _ _ _ _) as [[w1 face_index] |] eqn:Ebf; [| discriminate].
  cbn [bind] in H.
  destruct (build_face_frame _ _ _ _ _ _ _ _ Ebf)
    as (Es1 & _ & Ec1 & _ & v1 & v2 & v3 & v4 & face & Ev1 & Ef1 & _).
  destruct (uv_map_face _ _ _ _ _) as [[w2 ret] |] eqn:Euv; [| discriminate].
  cbn [bind] in H.
  destruct (uv_map_face_frame _ _ _ _ _ _ _ Euv) as (Es2 & _ & Ec2 & _ & Ev2 & Ef2 & _).
  assert (Hg : verts (bmesh w2) = verts (bmesh w) ++ [v1; v2; v3; v4] /\
               map face_verts (faces (bmesh w2))
               = map face_verts (faces (bmesh w)) ++ [face_verts face]).
  { rewrite Ev2, Ef2, Ev1, Ef1, Eb, map_app. auto. }
  assert (Hh : history_step w w2).
  { right. exists plane_cursor. now rewrite Ec2, Ec1. }
  assert (Hd : sprytile_data (scene w2) = sprytile_data (scene w))
    by now rewrite Es2, Es1, Es.
  destruct (cursor_flow _).
  - destruct (flow_cursor_frame _ _ _ _ H) as (Hb & Hc & _).
    rewrite (flow_cursor_data _ _ _ _ H), Hb.
    split; [exact Hd |]. split.
    + unfold history_step in *. now rewrite Hc.
    + right. exists v1, v2, v3, v4, (face_verts face). exact Hg.
  - injection H as <-. split; [exact Hd |]. split; [exact Hh |].
    right. exists v1, v2, v3, v4, (face_verts face). exact Hg.
Qed.

Lemma execute_build_frame (w w' : World) (ray_origin ray_vector : Vec) :
  execute_build w ray_origin ray_vector = Ok w' ->
  sprytile_data (scene w') = sprytile_data (scene w) /\
  history_step w w' /\
  ((verts (bmesh w') = verts (bmesh w) /\
    map face_verts (faces (bmesh w')) = map face_verts (faces (bmesh w))) \/
   (exists (v1 v2 v3 v4 : Vec) (f : list nat),
       verts (bmesh w') = verts (bmesh w) ++ [v1; v2; v3; v4] /\
       map face_verts (faces (bmesh w'))
       = map face_verts (faces (bmesh w)) ++ [f])).
Proof.
  unfold execute_build, get_current_grid_vectors. intros H.
  destruct (py_index _ _) as [g |]; [| discriminate]. cbn [bind] in H.
  destruct (raycast_object _ _ _) as [[h |] |]; try discriminate; cbn [bind] in H.
  - destruct (paint_over_gate _ _ _).
    + destruct (build_paint_over_frame _ _ _ _ _ _ H) as (Hd & Hv & Hf & Hh). auto.
    + now apply build_new_face_frame in H.
  - now apply build_new_face_frame in H.
Qed.

(** In every mode the tool only ever adds geometry: after
    [execute_tool] the old vertices and the vertex lists of the old
    faces are where they were; paint mode adds nothing, build mode adds
    nothing or one face on four new vertices. *)
Theorem execute_tool_keeps_geometry (s s' : Session) (ray_origin ray_vector : Vec) :
  execute_tool s ray_origin ray_vector = Ok s' ->
  geometry_kept (bmesh (world s)) (bmesh (world s')) /\
  (paint_mode s <> MAKE_FACE -> verts (bmesh (world s')) = verts (bmesh (world s)) /\
                                map face_verts (faces (bmesh (world s')))
                                = map face_verts (faces (bmesh (world s)))) /\
  ((List.length (verts (bmesh (world s'))) = List.length (verts (bmesh (world s))) /\
    List.length (faces (bmesh (world s'))) = List.length (faces (bmesh (world s)))) \/
   (List.length (verts (bmesh (world s'))) = List.length (verts (bmesh (world s))) + 4 /\
    List.length (faces (bmesh (world s')))
    = List.length (faces (bmesh (world s))) + 1))%nat.
Proof.
  intros H.
  assert (Hsame : forall m m' : BMesh,
             verts m' = verts m -> map face_verts (faces m') = map face_verts (faces m) ->
             geometry_kept m m' /\
             (paint_mode s <> MAKE_FACE ->
              verts m' = verts m /\ map face_verts (faces m') = map face_verts (faces m)) /\
             ((List.length (verts m') = List.length (verts m) /\
               List.length (faces m') = List.length (faces m)) \/
              (List.length (verts m') = List.length (verts m) + 4 /\
               List.length (faces m') = List.length (faces m) + 1))%nat).
  { intros m m' Hv Hf. split; [now apply geometry_kept_same |]. split; [auto |].
    left. rewrite Hv. split; [reflexivity |].
    rewrite <- (length_map face_verts (faces m')), Hf. apply length_map. }
  unfold execute_tool in H.
  destruct (tree_released s || gui_use_mouse s).
  { injection H as <-. now apply Hsame. }
  destruct (paint_mode s) eqn:Hmode.
  - destruct (execute_paint _ _ _) as [w' |] eqn:E; [| discriminate].
    cbn [bind] in H. injection H as <-. cbn [world set_world].
    destruct (execute_paint_frame _ _ _ _ E) as (_ & Hv & Hf & _).
    now apply Hsame.
  - destruct (execute_build _ _ _) as [w' |] eqn:E; [| discriminate].
    cbn [bind] in H. injection H as <-. cbn [world set_world].
    destruct (execute_build_frame _ _ _ _ E)
      as (_ & _ & [[Hv Hf] | (v1 & v2 & v3 & v4 & f & Hv & Hf)]).
    + now apply Hsame.
    + split; [| split].
      * split; [exists [v1; v2; v3; v4]; exact Hv | exists [f]; exact Hf].
      * intros Hc. contradiction.
      * right. rewrite Hv, length_app. split; [reflexivity |].
        rewrite <- (length_map face_verts (faces (bmesh w'))), Hf, length_app, length_map.
        reflexivity.
  - injection H as <-. now apply Hsame.
Qed.

Lemma sample_raycast_miss (g : Grid) (history : list Vec) (mesh : BMesh)
    (ray_origin ray_direction : Vec) :
  raycast_object (sample_world g history mesh no_hit) ray_origin ray_direction = Ok None.
Proof.
  unfold raycast_object. cbn [sample_world object matrix_world tree].
  rewrite inverted_identity. reflexivity.
Qed.

Lemma cell_plane_point :
  intersect_line_plane (mkVec 0.25 0.25 1) (mkVec 0.25 0.25 1 +v mkVec 0 0 (-1))
                       vzero axis_z
  = Some (mkVec 0.25 0.25 0).
Proof.
  unfold intersect_line_plane. rewrite if_Req_false by rcalc. f_equal. vcalc.
Qed.

Lemma cell_grid_pos :
  get_grid_pos (mkVec 0.25 0.25 0) vzero axis_x axis_y 1 1 1
  = Ok (vzero, axis_x, axis_y).
Proof.
  unfold get_grid_pos.
  rewrite (if_Rlt_false _ (dot axis_x _)) by (apply dot_normalized_nonneg; rcalc).
  rewrite (if_Rlt_false _ (dot axis_y _)) by (apply dot_normalized_nonneg; rcalc).
  rewrite !(py_div_ok _ 1) by lra. simpl bind.
  rewrite !py_div_ok by lra. simpl bind.
  rewrite !(floor_between _ 0) by rcalc.
  apply ok3_eq; vcalc.
Qed.

(** On the sample triangle with a ray that misses the mesh, build mode
    makes a new face. *)
Lemma execute_build_sample_new_face :
  let w := sample_world (unit_grid None) []
             (triangle (mkVec 5 5 0) (mkVec 6 5 0) (mkVec 5 6 0)) no_hit in
  exists w' : World,
    execute_build w (mkVec 0.25 0.25 1) (mkVec 0 0 (-1)) = Ok w' /\
    verts (bmesh w')
    = verts (bmesh w)
        ++ [mat_apply identity_matrix vzero;
            mat_apply identity_matrix vzero +v axis_y;
            mat_apply identity_matrix vzero +v axis_x +v axis_y;
            mat_apply identity_matrix vzero +v axis_x] /\
    List.length (faces (bmesh w')) = 2%nat.
Proof.
  cbv zeta. unfold execute_build.
  change (py_index _ _) with (Ok (unit_grid None)). cbn [bind].
  rewrite sample_vectors, sample_raycast_miss. cbn [bind].
  unfold build_new_face, raycast_grid.
  cbn [sample_world scene cursor_location sprytile_data world_pixels sprytile_grids
       object sprytile_gridid].
  rewrite cell_plane_point.
  change (py_index [unit_grid None] 0) with (Ok (unit_grid None)).
  cbn [bind unit_grid grid fst snd].
  rewrite cell_grid_pos. cbn [bind].
  change (add_virtual_cursor ?w ?p) with (set_virtual_cursor w [p]).
  unfold build_face. cbn [set_virtual_cursor sample_world object matrix_world].
  rewrite inverted_identity. cbn [bind].
  rewrite (uv_map_face_skips _ _ _ _ _ (unit_grid None));
    [| reflexivity | simpl; discriminate | right; reflexivity].
  cbn [bind]. eexists. split; [reflexivity |].
  split; reflexivity.
Qed.

Lemma execute_tool_keeps_geometry_witness :
  let w := sample_world (unit_grid None) []
             (triangle (mkVec 5 5 0) (mkVec 6 5 0) (mkVec 5 6 0)) no_hit in
  let s := sample_session w MAKE_FACE GRID in
  exists s' : Session,
    execute_tool s (mkVec 0.25 0.25 1) (mkVec 0 0 (-1)) = Ok s' /\
    List.length (verts (bmesh (world s'))) = 7%nat /\
    geometry_kept (bmesh (world s)) (bmesh (world s')) /\
    (paint_mode s <> MAKE_FACE -> verts (bmesh (world s')) = verts (bmesh (world s)) /\
                                  map face_verts (faces (bmesh (world s')))
                                  = map face_verts (faces (bmesh (world s)))) /\
    ((List.length (verts (bmesh (world s'))) = List.length (verts (bmesh (world s))) /\
      List.length (faces (bmesh (world s'))) = List.length (faces (bmesh (world s)))) \/
     (List.length (verts (bmesh (world s'))) = List.length (verts (bmesh (world s))) + 4 /\
      List.length (faces (bmesh (world s')))
      = List.length (faces (bmesh (world s))) + 1))%nat.
Proof.
  cbv zeta. destruct execute_build_sample_new_face as (w' & E & Hv & Hf).
  assert (Et : execute_tool
                 (sample_session
                    (sample_world (unit_grid None) []
                       (triangle (mkVec 5 5 0) (mkVec 6 5 0) (mkVec 5 6 0)) no_hit)
                    MAKE_FACE GRID)
                 (mkVec 0.25 0.25 1) (mkVec 0 0 (-1))
               = Ok (set_world
                       (sample_session
                          (sample_world (unit_grid None) []
                             (triangle (mkVec 5 5 0) (mkVec 6 5 0) (mkVec 5 6 0)) no_hit)
                          MAKE_FACE GRID)
                       w')).
  { unfold execute_tool.
    cbn [sample_session tree_released gui_use_mouse orb paint_mode world].
    cbv zeta in E. rewrite E. reflexivity. }
  eexists. split; [exact Et |].
  split; [cbn [world set_world]; rewrite Hv; reflexivity |].
  exact (execute_tool_keeps_geometry _ _ _ _ Et).
Defined.

Lemma find_view_axis_history (s : Session) (view_vector view_up_vector : Vec) :
  virtual_cursor (world (find_view_axis s view_vector view_up_vector))
    = virtual_cursor (world s) \/
  virtual_cursor (world (find_view_axis s view_vector view_up_vector)) = [].
Proof.
  unfold find_view_axis.
  destruct (lock_normal s); [now left |].
  destruct (Req_dec_T _ 0); [| now left].
  cbn [world set_normal_mode set_world].
  destruct (NormalMode_eqb _ _); [left | right]; reflexivity.
Qed.

Lemma cursor_snap_frame (s s' : Session) (find_nearest : Vec -> option Hit)
    (ray_origin ray_vector : Vec) :
  cursor_snap s find_nearest ray_origin ray_vector = Ok s' ->
  virtual_cursor (world s') = virtual_cursor (world s) /\
  sprytile_data (scene (world s')) = sprytile_data (scene (world s)) /\
  bmesh (world s') = bmesh (world s).
Proof.
  unfold cursor_snap, get_current_grid_vectors. intros H.
  destruct (tree_released s || gui_use_mouse s).
  { injection H as <-. auto. }
  destruct (cursor_snap_mode s).
  - destruct (intersect_line_plane _ _ _ _); [| injection H as <-; auto].
    destruct (py_index _ _); [| discriminate]. cbn [bind] in H.
    destruct (get_grid_pos _ _ _ _ _ _ _) as [[[g x] y] |]; [| discriminate].
    cbn [bind] in H. injection H as <-. auto.
  - destruct (raycast_object _ _ _) as [[h |] |]; try discriminate; cbn [bind] in H.
    2:{ injection H as <-. auto. }
    destruct (inverted _); [| discriminate]. cbn [bind] in H.
    destruct (find_nearest _) as [near |]; [| injection H as <-; auto].
    destruct (py_index (faces _) _) as [face |]; [| discriminate]. cbn [bind] in H.
    destruct (fold_left _ _ _) as [closest_vtx closest_dist].
    destruct (closest_vtx =? -1)%Z; [injection H as <-; auto |].
    destruct (py_index (face_verts face) _); [| discriminate]. cbn [bind] in H.
    injection H as <-. auto.
  - injection H as <-. auto.
Qed.

Lemma history_step_invariant (w w' : World) :
  history_step w w' ->
  (List.length (virtual_cursor w) <= 3)%nat /\ well_spaced (virtual_cursor w) ->
  (List.length (virtual_cursor w') <= 3)%nat /\ well_spaced (virtual_cursor w').
Proof.
  intros [-> | [p ->]] [Hl Hs]; [auto |].
  split; [now apply add_virtual_cursor_length_le | now apply add_virtual_cursor_spacing].
Qed.

Lemma tool_step_invariant (s s' : Session) :
  tool_step s s' -> session_invariant s -> session_invariant s'.
Proof.
  intros Hstep (Hl & Hs & Hp). destruct Hstep as [s vv vu | s s' o d H | s s' nearest o d H].
  - unfold session_invariant.
    destruct (find_view_axis_history s vv vu) as [-> | ->].
    + split; [exact Hl |]. split; [exact Hs |]. now apply find_view_axis_axes.
    + split; [simpl; lia |]. split; [constructor |]. now apply find_view_axis_axes.
  - unfold execute_tool in H.
    destruct (tree_released s || gui_use_mouse s).
    { injection H as <-. unfold session_invariant. auto. }
    destruct (paint_mode s).
    + destruct (execute_paint _ _ _) as [w' |] eqn:E; [| discriminate].
      cbn [bind] in H. injection H as <-.
      destruct (execute_paint_frame _ _ _ _ E) as (Hd & _ & _ & Hh).
      destruct (history_step_invariant _ _ Hh (conj Hl Hs)).
      unfold session_invariant. cbn [world set_world]. now rewrite Hd.
    + destruct (execute_build _ _ _) as [w' |] eqn:E; [| discriminate].
      cbn [bind] in H. injection H as <-.
      destruct (execute_build_frame _ _ _ _ E) as (Hd & Hh & _).
      destruct (history_step_invariant _ _ Hh (conj Hl Hs)).
      unfold session_invariant. cbn [world set_world]. now rewrite Hd.
    + injection H as <-. unfold session_invariant. auto.
  - destruct (cursor_snap_frame _ _ _ _ _ H) as (Hc & Hd & _).
    unfold session_invariant. now rewrite Hc, Hd.
Qed.

(** Through any sequence of calls of [find_view_axis], [execute_tool]
    and [cursor_snap] that raise nothing, the history stays within three entries whose
    neighbours are at least 0.1 apart, and the stored painting normal
    and up stay two signed world axes at a right angle. *)
Theorem tool_run_keeps_invariant (s s' : Session) :
  tool_run s s' -> session_invariant s -> session_invariant s'.
Proof.
  intros Hrun. induction Hrun as [s | s s' s'' Hstep Hrun IH]; [auto |].
  intros Hi. apply IH. now apply (tool_step_invariant s s').
Qed.

Lemma tool_run_keeps_invariant_witness :
  session_invariant
    (find_view_axis
       (sample_session
          (sample_world (unit_grid None) [vzero; mkVec 1 0 0] (mkBMesh [] []) no_hit)
          PAINT GRID)
       (mkVec 1 0 0) (mkVec 0 1 0)).
Proof.
  apply (tool_run_keeps_invariant
           (sample_session
              (sample_world (unit_grid None) [vzero; mkVec 1 0 0] (mkBMesh [] []) no_hit)
              PAINT GRID)).
  - eapply run_step; [apply step_view_axis | apply run_done].
  - unfold session_invariant. cbn. split; [lia |]. split.
    + constructor; [| constructor].
      rewrite (magnitude_eq _ 1); [lra | lra | unfold dot; simpl; lra].
    + unfold perpendicular_axes, signed_axes. cbn.
      repeat split; [tauto | tauto | rcalc].
Defined.

(** ** UV projection and cursor flow, once more *)

Lemma uv_map_face_value (w : World) (up_vector right_vector : Vec) (tile_xy : Z * Z)
    (face_index : nat) (g : Grid) (img : Image) (face : Face) (ux uy : R) :
  py_index (sprytile_grids (scene w)) (sprytile_gridid (object w)) = Ok g ->
  world_pixels (sprytile_data (scene w)) <> 0%Z ->
  fst (grid g) <> 0%Z -> snd (grid g) <> 0%Z ->
  nth_error (faces (bmesh w)) face_index = Some face ->
  get_grid_texture g = Some img ->
  uv_unit g img = Ok (ux, uy) ->
  let wc_x := IZR (fst (grid g)) / IZR (world_pixels (sprytile_data (scene w))) in
  let wc_y := IZR (snd (grid g)) / IZR (world_pixels (sprytile_data (scene w))) in
  let origin := calc_center_median (bmesh w) face in
  let project := fun loop : Loop =>
    mkLoop (vert loop)
      ((dot right_vector (co (bmesh w) (vert loop) -v origin) / wc_x + 0.5) * ux
         + ux * IZR (fst tile_xy),
       (dot up_vector (co (bmesh w) (vert loop) -v origin) / wc_y + 0.5) * uy
         + uy * IZR (snd tile_xy)) in
  uv_map_face w up_vector right_vector tile_xy face_index
  = Ok (set_bmesh w
          (mkBMesh (verts (bmesh w))
             (list_set (faces (bmesh w)) face_index
                       (mkFace (map project (loops face)) (material_index face)))),
        Some (face_index, g)).
Proof.
  intros Hg Hwp Hgx Hgy Hface Htex Hu wc_x wc_y origin project.
  assert (Hw : IZR (world_pixels (sprytile_data (scene w))) <> 0) by now apply not_0_IZR.
  assert (Hx : wc_x <> 0).
  { apply Rmult_integral_contrapositive. split; [now apply not_0_IZR |].
    now apply Rinv_neq_0_compat. }
  assert (Hy : wc_y <> 0).
  { apply Rmult_integral_contrapositive. split; [now apply not_0_IZR |].
    now apply Rinv_neq_0_compat. }
  unfold uv_map_face. rewrite Hg. cbn [bind].
  rewrite !py_div_ok by assumption. cbn [bind].
  rewrite (nth_error_leb _ _ _ _ Hface), Htex, Hu. cbn [bind].
  unfold py_index. rewrite Hface. cbn [bind].
  fold wc_x wc_y origin.
  rewrite (map_result_ok _ _ _ project).
  - reflexivity.
  - intros a _. rewrite project_loop_ok by assumption. reflexivity.
Qed.

Lemma atlas_uv_unit : uv_unit atlas_grid (mkImage (256, 256)%Z) = Ok (0.125, 0.125).
Proof.
  unfold uv_unit. cbn [atlas_grid size grid fst snd].
  rewrite !py_div_ok by lra. cbn [bind]. f_equal. f_equal; lra.
Qed.

Lemma nth_error_list_set_other (A : Type) (l : list A) (i j : nat) (a : A) :
  j <> i -> nth_error (list_set l i a) j = nth_error l j.
Proof.
  revert i j. induction l as [| x t IH]; intros [| i] [| j] H; simpl; auto;
    try contradiction; apply IH; lia.
Qed.

Lemma length_list_set (A : Type) (l : list A) (i : nat) (a : A) :
  List.length (list_set l i a) = List.length l.
Proof.
  revert i. induction l as [| x t IH]; intros [| i]; simpl; auto.
Qed.

Lemma uv_map_face_other_faces (w w' : World) (up_vector right_vector : Vec)
    (tile_xy : Z * Z) (face_index : nat) (ret : option (nat * Grid)) :
  uv_map_face w up_vector right_vector tile_xy face_index = Ok (w', ret) ->
  materials w' = materials w /\
  (forall j : nat, j <> face_index ->
                   nth_error (faces (bmesh w')) j = nth_error (faces (bmesh w)) j) /\
  (forall (i : nat) (g : Grid),
      ret = Some (i, g) ->
      i = face_index /\
      py_index (sprytile_grids (scene w)) (sprytile_gridid (object w)) = Ok g /\
      (face_index < List.length (faces (bmesh w)))%nat).
Proof.
  unfold uv_map_face. intros H.
  destruct (py_index (sprytile_grids (scene w)) _) as [g |]; [| discriminate].
  cbn [bind] in H.
  destruct (py_div (IZR (fst (grid g))) _); [| discriminate]. cbn [bind] in H.
  destruct (py_div (IZR (snd (grid g))) _); [| discriminate]. cbn [bind] in H.
  destruct (List.length (faces (bmesh w)) <=? face_index)%nat eqn:El.
  { injection H as <- <-. repeat split; auto; intros; discriminate. }
  destruct (get_grid_texture g) as [img |].
  2:{ injection H as <- <-. repeat split; auto; intros; discriminate. }
  destruct (uv_unit g img) as [[ux uy] |]; [| discriminate]. cbn [bind] in H.
  destruct (py_index (faces (bmesh w)) face_index); [| discriminate].
  cbn [bind] in H.
  destruct (map_result _ _); [| discriminate]. cbn [bind] in H.
  injection H as <- <-. cbn [bmesh set_bmesh faces materials].
  split; [reflexivity |]. split.
  - intros j Hj. now apply nth_error_list_set_other.
  - intros i g' E. injection E as <- <-. apply Nat.leb_gt in El. auto.
Qed.

(** The UV projection writes the UVs of the one face it is given and
    nothing else: every other face, the vertices, the number of faces,
    the scene, the history and the tree are as before, and the face
    itself keeps its vertices and its material. *)
Theorem uv_map_face_touches_one_face (w w' : World) (up_vector right_vector : Vec)
    (tile_xy : Z * Z) (face_index : nat) (ret : option (nat * Grid)) :
  uv_map_face w up_vector right_vector tile_xy face_index = Ok (w', ret) ->
  (forall j : nat, j <> face_index ->
                   nth_error (faces (bmesh w')) j = nth_error (faces (bmesh w)) j) /\
  List.length (faces (bmesh w')) = List.length (faces (bmesh w)) /\
  verts (bmesh w') = verts (bmesh w) /\
  map face_verts (faces (bmesh w')) = map face_verts (faces (bmesh w)) /\
  map material_index (faces (bmesh w')) = map material_index (faces (bmesh w)) /\
  scene w' = scene w /\ virtual_cursor w' = virtual_cursor w /\ tree w' = tree w.
Proof.
  intros H.
  destruct (uv_map_face_frame _ _ _ _ _ _ _ H) as (Hs & _ & Hc & Ht & Hv & Hf & Hm).
  destruct (uv_map_face_other_faces _ _ _ _ _ _ _ H) as (_ & Ho & _).
  assert (Hlen : List.length (faces (bmesh w')) = List.length (faces (bmesh w))).
  { rewrite <- (length_map face_verts (faces (bmesh w'))), Hf. apply length_map. }
  repeat split; auto.
Qed.

Lemma uv_map_face_touches_one_face_witness :
  let w := sample_world atlas_grid [] two_triangles no_hit in
  exists (w' : World) (face' : Face) (loop' : Loop),
    uv_map_face w axis_y axis_x (2, 1)%Z 0 = Ok (w', Some (0%nat, atlas_grid)) /\
    nth_error (faces (bmesh w')) 0 = Some face' /\
    nth_error (loops face') 0 = Some loop' /\
    uv loop' = (0.3125, 0.1875) /\
    (forall j : nat, j <> 0%nat ->
                     nth_error (faces (bmesh w')) j = nth_error (faces (bmesh w)) j) /\
    List.length (faces (bmesh w')) = List.length (faces (bmesh w)) /\
    verts (bmesh w') = verts (bmesh w) /\
    map face_verts (faces (bmesh w')) = map face_verts (faces (bmesh w)) /\
    map material_index (faces (bmesh w')) = map material_index (faces (bmesh w)) /\
    scene w' = scene w /\ virtual_cursor w' = virtual_cursor w /\ tree w' = tree w.
Proof.
  cbv zeta.
  pose proof (uv_map_face_value (sample_world atlas_grid [] two_triangles no_hit)
                axis_y axis_x (2, 1)%Z 0 atlas_grid (mkImage (256, 256)%Z)
                (mkFace [mkLoop 0 (0, 0); mkLoop 1 (0, 0); mkLoop 2 (0, 0)] 0%Z)
                0.125 0.125 eq_refl) as E.
  cbv zeta in E.
  specialize (E ltac:(simpl; discriminate) ltac:(simpl; discriminate)
                ltac:(simpl; discriminate) eq_refl eq_refl atlas_uv_unit).
  do 3 eexists. split; [exact E |].
  split; [reflexivity |]. split; [reflexivity |]. split.
  - cbn [uv]. unfold calc_center_median, vsum, co, face_verts.
    cbn [two_triangles sample_world bmesh verts loops map vert nth fold_left
         List.length scene sprytile_data world_pixels atlas_grid grid fst snd].
    f_equal; unfold dot, vadd, vsub, vscale, vzero, axis_x, axis_y; simpl; lra.
  - exact (uv_map_face_touches_one_face _ _ _ _ _ _ _ E).
Defined.

Lemma flow_fold (w : World) (cur dir : Vec) (max_dot : R) (l : list nat) :
  forall (k : nat) (st : Z * Vec),
    let r := fold_left (flow_step w cur dir max_dot)
                       (combine (map Z.of_nat (seq k (List.length l))) l) st in
    r = st \/
    exists v : nat,
      In v l /\ (0 <= fst r)%Z /\
      snd r = mat_apply (matrix_world (object w)) (co (bmesh w) v).
Proof.
  induction l as [| x t IH]; intros k st; [now left |].
  cbn [List.length seq map combine fold_left].
  destruct (IH (S k) (flow_step w cur dir max_dot st (Z.of_nat k, x)))
    as [E | (v & Hv & Hi & Hp)].
  - cbv zeta in E. rewrite E. unfold flow_step. cbn [fst snd].
    destruct (Rlt_dec _ max_dot); [| now left].
    right. exists x. cbn [fst snd]. split; [now left |]. split; [lia | reflexivity].
  - right. exists v. split; [now right | auto].
Qed.

(** Cursor flow either leaves everything as it is or moves the
    reference cursor onto a vertex of the given face, in world space;
    it changes nothing else. *)
Theorem flow_cursor_moves_to_face_vertex (w w' : World) (face_index : nat)
    (virtual_cursor_pos : Vec) :
  flow_cursor w face_index virtual_cursor_pos = Ok w' ->
  w' = w \/
  exists (face : Face) (v : nat),
    nth_error (faces (bmesh w)) face_index = Some face /\
    In v (face_verts face) /\
    w' = set_cursor_location w (mat_apply (matrix_world (object w)) (co (bmesh w) v)).
Proof.
  unfold flow_cursor. intros H.
  destruct (List.length (virtual_cursor w) <=? 1)%nat.
  { injection H as <-. now left. }
  unfold py_index in H.
  destruct (nth_error (faces (bmesh w)) face_index) as [face |] eqn:Ef; [| discriminate].
  cbn [bind] in H. unfold enumerate in H.
  destruct (flow_fold w virtual_cursor_pos
              (normalized (get_virtual_cursor_vector w)) 1 (face_verts face) 0
              ((-1)%Z, vzero)) as [E | (v & Hv & Hi & Hp)].
  - cbv zeta in E. rewrite E in H. cbn in H. injection H as <-. now left.
  - cbv zeta in Hi, Hp.
    destruct (fold_left _ _ _) as [idx pos]. cbn [fst snd] in *.
    destruct (idx =? -1)%Z eqn:Ei; [apply Z.eqb_eq in Ei; lia |].
    injection H as <-. right. exists face, v. subst pos. auto.
Qed.

(** Travelling along +X from the origin, the flow on the triangle
    (2,0,0), (3,4,0), (4,3,0) moves the cursor to (4,3,0). *)
Lemma flow_cursor_sample_moves :
  let w := sample_world (unit_grid None) [vzero; mkVec 1 0 0]
             (triangle (mkVec 2 0 0) (mkVec 3 4 0) (mkVec 4 3 0)) no_hit in
  flow_cursor w 0 vzero = Ok (set_cursor_location w (mkVec 4 3 0)).
Proof.
  cbv zeta.
  set (mesh := triangle (mkVec 2 0 0) (mkVec 3 4 0) (mkVec 4 3 0)).
  set (w := sample_world (unit_grid None) [vzero; mkVec 1 0 0] mesh no_hit).
  assert (D : normalized (get_virtual_cursor_vector w) = mkVec 1 0 0).
  { rewrite get_virtual_cursor_vector_value. simpl.
    rewrite (normalized_value _ 0.5); [vcalc | lra |].
    unfold vsum, vdiv. simpl. rcalc. }
  unfold flow_cursor. rewrite D.
  change (List.length (virtual_cursor w) <=? 1)%nat with false. cbv iota.
  change (py_index (faces (bmesh w)) 0)
    with (Ok (mkFace [mkLoop 0 (0, 0); mkLoop 1 (0, 0); mkLoop 2 (0, 0)] 0%Z)).
  cbn [bind].
  change (enumerate (face_verts _)) with [(0%Z, 0%nat); (1%Z, 1%nat); (2%Z, 2%nat)].
  cbn [fold_left].
  rewrite (flow_step_value w vzero _ _ 0 0 2 0); [| lra | wcalc | apply Rabs_value; wcalc].
  rewrite (flow_step_value w vzero _ _ 1 1 5 0.4); [| lra | wcalc | apply Rabs_value; wcalc].
  rewrite (flow_step_value w vzero _ _ 2 2 5 0.2); [| lra | wcalc | apply Rabs_value; wcalc].
  rewrite !if_Rlt_true by lra.
  change ((2 =? -1)%Z) with false. cbv iota.
  f_equal. unfold set_cursor_location. f_equal. f_equal. wcalc.
Qed.

Lemma flow_cursor_moves_to_face_vertex_witness :
  let w := sample_world (unit_grid None) [vzero; mkVec 1 0 0]
             (triangle (mkVec 2 0 0) (mkVec 3 4 0) (mkVec 4 3 0)) no_hit in
  let w' := set_cursor_location w (mkVec 4 3 0) in
  flow_cursor w 0 vzero = Ok w' /\
  (w' = w \/
   exists (face : Face) (v : nat),
     nth_error (faces (bmesh w)) 0 = Some face /\
     In v (face_verts face) /\
     w' = set_cursor_location w (mat_apply (matrix_world (object w)) (co (bmesh w) v))).
Proof.
  cbv zeta. split; [exact flow_cursor_sample_moves |].
  exact (flow_cursor_moves_to_face_vertex _ _ _ _ flow_cursor_sample_moves).
Defined.

(** ** A new face and its tile *)

Lemma corner_uv (axis x y P1 v c : Vec) (a b xu ux t s : R) :
  v = P1 +v x *v a +v y *v b ->
  c = P1 +v x *v (1 / 2) +v y *v (1 / 2) ->
  dot axis x = s * xu -> dot axis y = 0 -> xu <> 0 ->
  (dot axis (v -v c) / xu + 0.5) * ux + ux * t = ux * (t + 1 / 2 + s * (a - 1 / 2)).
Proof.
  intros -> -> Hx Hy Hxu.
  replace (dot axis (P1 +v x *v a +v y *v b -v (P1 +v x *v (1 / 2) +v y *v (1 / 2))))
    with ((a - 1 / 2) * dot axis x + (b - 1 / 2) * dot axis y)
    by (unfold dot, vadd, vsub, vscale; cbn [vx vy vz]; lra).
  rewrite Hx, Hy. replace 0.5 with (1 / 2) by lra. field. exact Hxu.
Qed.

Lemma build_face_then_uv_map_loops (w : World)
    (position up_vector right_vector rs us : Vec) (matrix_inv : Matrix)
    (g : Grid) (img : Image) (ux uy : R) (tile_xy : Z * Z) :
  inverted (matrix_world (object w)) = Ok matrix_inv ->
  py_index (sprytile_grids (scene w)) (sprytile_gridid (object w)) = Ok g ->
  world_pixels (sprytile_data (scene w)) <> 0%Z ->
  fst (grid g) <> 0%Z -> snd (grid g) <> 0%Z ->
  get_grid_texture g = Some img ->
  uv_unit g img = Ok (ux, uy) ->
  dot right_vector up_vector = 0 ->
  (rs = right_vector \/ rs = right_vector *v (-1)) ->
  (us = up_vector \/ us = up_vector *v (-1)) ->
  let x_unit := IZR (fst (grid g)) / IZR (world_pixels (sprytile_data (scene w))) in
  let y_unit := IZR (snd (grid g)) / IZR (world_pixels (sprytile_data (scene w))) in
  let n := List.length (verts (bmesh w)) in
  let index := List.length (faces (bmesh w)) in
  exists (w1 w2 : World) (face : Face),
    build_face w position (rs *v x_unit) (us *v y_unit) up_vector right_vector
      = Ok (w1, index) /\
    uv_map_face w1 up_vector right_vector tile_xy index = Ok (w2, Some (index, g)) /\
    nth_error (faces (bmesh w2)) index = Some face /\
    List.length (loops face) = 4%nat /\
    forall l : Loop,
      In l (loops face) ->
      exists k : nat,
        (k < 4)%nat /\ vert l = (n + k)%nat /\
        uv l = (ux * (IZR (fst tile_xy) + 1 / 2
                      + dot right_vector rs * (fst (quad_corner k) - 1 / 2)),
                uy * (IZR (snd tile_xy) + 1 / 2
                      + dot up_vector us * (snd (quad_corner k) - 1 / 2))).
Proof.
  intros Hinv Hg Hwp Hgx Hgy Htex Hu Hru Hrs Hus x_unit y_unit n index.
  assert (Hw : IZR (world_pixels (sprytile_data (scene w))) <> 0) by now apply not_0_IZR.
  assert (Hxu : x_unit <> 0).
  { apply Rmult_integral_contrapositive. split; [now apply not_0_IZR |].
    now apply Rinv_neq_0_compat. }
  assert (Hyu : y_unit <> 0).
  { apply Rmult_integral_contrapositive. split; [now apply not_0_IZR |].
    now apply Rinv_neq_0_compat. }
  set (x := rs *v x_unit). set (y := us *v y_unit).
  assert (Drx : dot right_vector x = dot right_vector rs * x_unit)
    by (unfold x, dot; simpl; ring).
  assert (Duy : dot up_vector y = dot up_vector us * y_unit)
    by (unfold y, dot; simpl; ring).
  assert (Dry : dot right_vector y = 0).
  { replace (dot right_vector y) with (y_unit * dot right_vector us)
      by (unfold y, dot; simpl; ring).
    destruct Hus as [-> | ->]; rewrite ?dot_neg_r, Hru; ring. }
  assert (Dux : dot up_vector x = 0).
  { replace (dot up_vector x) with (x_unit * dot up_vector rs)
      by (unfold x, dot; simpl; ring).
    rewrite (dot_comm up_vector).
    destruct Hrs as [-> | ->]; rewrite ?dot_neg_l, Hru; ring. }
  unfold build_face. rewrite Hinv. cbn [bind].
  set (P1 := mat_apply matrix_inv position).
  fold n index.
  set (order := if Bool.eqb _ _ then _ else _).
  set (face0 := mkFace (map (fun v => mkLoop v (0, 0)) order) 0%Z).
  set (mesh1 := mkBMesh (verts (bmesh w) ++ [P1; P1 +v y; P1 +v x +v y; P1 +v x])
                        (faces (bmesh w) ++ [face0])).
  set (w1 := set_tree (set_bmesh w mesh1) (FromBMesh (set_bmesh w mesh1) mesh1)).
  assert (Hf0 : nth_error (faces (bmesh w1)) index = Some face0).
  { cbn. unfold index. rewrite nth_error_app2 by lia. now rewrite Nat.sub_diag. }
  assert (C0 : co mesh1 n = P1 +v x *v 0 +v y *v 0).
  { unfold co, mesh1. cbn [verts]. rewrite <- (Nat.add_0_r n). unfold n.
    rewrite nth_new. cbn. apply vec_eq; simpl; ring. }
  assert (C1 : co mesh1 (S n) = P1 +v x *v 0 +v y *v 1).
  { unfold co, mesh1. cbn [verts]. replace (S n) with (n + 1)%nat by lia. unfold n.
    rewrite nth_new. cbn. apply vec_eq; simpl; ring. }
  assert (C2 : co mesh1 (S (S n)) = P1 +v x *v 1 +v y *v 1).
  { unfold co, mesh1. cbn [verts]. replace (S (S n)) with (n + 2)%nat by lia. unfold n.
    rewrite nth_new. cbn. apply vec_eq; simpl; ring. }
  assert (C3 : co mesh1 (S (S (S n))) = P1 +v x *v 1 +v y *v 0).
  { unfold co, mesh1. cbn [verts]. replace (S (S (S n))) with (n + 3)%nat by lia. unfold n.
    rewrite nth_new. cbn. apply vec_eq; simpl; ring. }
  assert (Hc : calc_center_median mesh1 face0
               = P1 +v x *v (1 / 2) +v y *v (1 / 2)).
  { unfold calc_center_median, face_verts, face0, vsum. cbn [loops].
    rewrite length_map, !map_map. cbn [vert].
    unfold order. destruct (Bool.eqb _ _); cbn [map fold_left List.length];
      rewrite C0, C1, C2, C3; apply vec_eq; simpl; lra. }
  pose proof (uv_map_face_value w1 up_vector right_vector tile_xy index g img face0
                ux uy Hg Hwp Hgx Hgy Hf0 Htex Hu) as E.
  cbv zeta in E.
  exists w1. eexists. eexists.
  split; [reflexivity |]. split; [exact E |].
  cbn [bmesh set_bmesh faces].
  split; [eapply nth_error_list_set; exact Hf0 |].
  cbn [loops].
  split.
  { rewrite length_map. unfold face0. cbn [loops]. rewrite length_map.
    unfold order. destruct (Bool.eqb _ _); reflexivity. }
  intros l Hin. apply in_map_iff in Hin. destruct Hin as (l0 & <- & Hin0).
  unfold face0 in Hin0. cbn [loops] in Hin0.
  apply in_map_iff in Hin0. destruct Hin0 as (v & <- & Hv).
  cbn [vert uv].
  change (bmesh w1) with mesh1. rewrite Hc.
  change (world_pixels (sprytile_data (scene w1)))
    with (world_pixels (sprytile_data (scene w))).
  fold x_unit y_unit.
  assert (Hk : v = n \/ v = S n \/ v = S (S n) \/ v = S (S (S n))).
  { unfold order in Hv. destruct (Bool.eqb _ _); cbn [In] in Hv; intuition auto. }
  destruct Hk as [-> | [-> | [-> | ->]]].
  - exists 0%nat. split; [lia |]. split; [lia |]. cbn [quad_corner fst snd]. f_equal.
    + eapply corner_uv; [exact C0 | reflexivity | exact Drx | exact Dry | exact Hxu].
    + eapply (corner_uv up_vector y x P1 _ _ 0 0);
        [| | exact Duy | exact Dux | exact Hyu].
      * rewrite C0. apply vec_eq; simpl; ring.
      * apply vec_eq; simpl; ring.
  - exists 1%nat. split; [lia |]. split; [lia |]. cbn [quad_corner fst snd]. f_equal.
    + eapply corner_uv; [exact C1 | reflexivity | exact Drx | exact Dry | exact Hxu].
    + eapply (corner_uv up_vector y x P1 _ _ 1 0);
        [| | exact Duy | exact Dux | exact Hyu].
      * rewrite C1. apply vec_eq; simpl; ring.
      * apply vec_eq; simpl; ring.
  - exists 2%nat. split; [lia |]. split; [lia |]. cbn [quad_corner fst snd]. f_equal.
    + eapply corner_uv; [exact C2 | reflexivity | exact Drx | exact Dry | exact Hxu].
    + eapply (corner_uv up_vector y x P1 _ _ 1 1);
        [| | exact Duy | exact Dux | exact Hyu].
      * rewrite C2. apply vec_eq; simpl; ring.
      * apply vec_eq; simpl; ring.
  - exists 3%nat. split; [lia |]. split; [lia |]. cbn [quad_corner fst snd]. f_equal.
    + eapply corner_uv; [exact C3 | reflexivity | exact Drx | exact Dry | exact Hxu].
    + eapply (corner_uv up_vector y x P1 _ _ 0 1);
        [| | exact Duy | exact Dux | exact Hyu].
      * rewrite C3. apply vec_eq; simpl; ring.
      * apply vec_eq; simpl; ring.
Qed.

Lemma unit_sign (a b : Vec) :
  dot a a = 1 -> (b = a \/ b = a *v (-1)) -> dot a b = 1 \/ dot a b = -1.
Proof.
  intros H [-> | ->]; rewrite ?dot_neg_r, H; [left | right]; lra.
Qed.

(** A face built on a grid cell and then UV-mapped shows exactly the
    selected tile: with an orthonormal painting basis and cell edges
    along it (as the grid snap returns them), [build_face] followed by
    [uv_map_face] on the new face gives the loop at the [k]-th new
    vertex the tile corner that vertex has in the cell, mirrored along
    an edge that runs against the basis; every U is the left or the
    right edge of the tile and every V its bottom or top edge. *)
Theorem build_face_then_uv_map_fills_tile (w : World)
    (position up_vector right_vector rs us : Vec) (matrix_inv : Matrix)
    (g : Grid) (img : Image) (ux uy : R) (tile_xy : Z * Z) :
  inverted (matrix_world (object w)) = Ok matrix_inv ->
  py_index (sprytile_grids (scene w)) (sprytile_gridid (object w)) = Ok g ->
  world_pixels (sprytile_data (scene w)) <> 0%Z ->
  fst (grid g) <> 0%Z -> snd (grid g) <> 0%Z ->
  get_grid_texture g = Some img ->
  uv_unit g img = Ok (ux, uy) ->
  dot right_vector right_vector = 1 ->
  dot up_vector up_vector = 1 ->
  dot right_vector up_vector = 0 ->
  (rs = right_vector \/ rs = right_vector *v (-1)) ->
  (us = up_vector \/ us = up_vector *v (-1)) ->
  let x_unit := IZR (fst (grid g)) / IZR (world_pixels (sprytile_data (scene w))) in
  let y_unit := IZR (snd (grid g)) / IZR (world_pixels (sprytile_data (scene w))) in
  let n := List.length (verts (bmesh w)) in
  let index := List.length (faces (bmesh w)) in
  exists (w1 w2 : World) (face : Face),
    build_face w position (rs *v x_unit) (us *v y_unit) up_vector right_vector
      = Ok (w1, index) /\
    uv_map_face w1 up_vector right_vector tile_xy index = Ok (w2, Some (index, g)) /\
    nth_error (faces (bmesh w2)) index = Some face /\
    List.length (loops face) = 4%nat /\
    forall l : Loop,
      In l (loops face) ->
      (exists k : nat,
          (k < 4)%nat /\ vert l = (n + k)%nat /\
          uv l = (ux * (IZR (fst tile_xy) + 1 / 2
                        + dot right_vector rs * (fst (quad_corner k) - 1 / 2)),
                  uy * (IZR (snd tile_xy) + 1 / 2
                        + dot up_vector us * (snd (quad_corner k) - 1 / 2)))) /\
      (fst (uv l) = ux * IZR (fst tile_xy) \/
       fst (uv l) = ux * (IZR (fst tile_xy) + 1)) /\
      (snd (uv l) = uy * IZR (snd tile_xy) \/
       snd (uv l) = uy * (IZR (snd tile_xy) + 1)).
Proof.
  intros Hinv Hg Hwp Hgx Hgy Htex Hu Hrr Huu Hru Hrs Hus x_unit y_unit n index.
  destruct (build_face_then_uv_map_loops w position up_vector right_vector rs us
              matrix_inv g img ux uy tile_xy Hinv Hg Hwp Hgx Hgy Htex Hu Hru Hrs Hus)
    as (w1 & w2 & face & Hb & Hm & Hf & Hl & Hloops).
  exists w1, w2, face. repeat (split; [assumption |]).
  intros l Hin. destruct (Hloops l Hin) as (k & Hk & Hv & Huv).
  split; [exists k; auto |].
  rewrite Huv. cbn [fst snd].
  destruct (unit_sign right_vector rs Hrr Hrs) as [-> | ->],
           (unit_sign up_vector us Huu Hus) as [-> | ->];
    destruct k as [| [| [| [| k']]]]; try lia; cbn [quad_corner fst snd];
    (split; [ (left; f_equal; lra) || (right; f_equal; lra)
            | (left; f_equal; lra) || (right; f_equal; lra) ]).
Qed.

Lemma build_face_then_uv_map_fills_tile_witness :
  let w := sample_world atlas_grid [] (mkBMesh [] []) no_hit in
  exists (w1 w2 : World) (face : Face),
    build_face w vzero (axis_x *v (32 / 1)) (axis_y *v (32 / 1)) axis_y axis_x
      = Ok (w1, 0%nat) /\
    uv_map_face w1 axis_y axis_x (2, 1)%Z 0 = Ok (w2, Some (0%nat, atlas_grid)) /\
    nth_error (faces (bmesh w2)) 0 = Some face /\
    List.length (loops face) = 4%nat /\
    forall l : Loop,
      In l (loops face) ->
      (exists k : nat,
          (k < 4)%nat /\ vert l = (0 + k)%nat /\
          uv l = (0.125 * (2 + 1 / 2 + dot axis_x axis_x * (fst (quad_corner k) - 1 / 2)),
                  0.125 * (1 + 1 / 2 + dot axis_y axis_y * (snd (quad_corner k) - 1 / 2)))) /\
      (fst (uv l) = 0.125 * 2 \/ fst (uv l) = 0.125 * (2 + 1)) /\
      (snd (uv l) = 0.125 * 1 \/ snd (uv l) = 0.125 * (1 + 1)).
Proof.
  cbv zeta.
  apply (build_face_then_uv_map_fills_tile
           (sample_world atlas_grid [] (mkBMesh [] []) no_hit)
           vzero axis_y axis_x axis_x axis_y identity_matrix atlas_grid
           (mkImage (256, 256)%Z) 0.125 0.125 (2, 1)%Z).
  - apply inverted_identity.
  - reflexivity.
  - simpl. discriminate.
  - simpl. discriminate.
  - simpl. discriminate.
  - reflexivity.
  - apply atlas_uv_unit.
  - rcalc.
  - rcalc.
  - rcalc.
  - now left.
  - now left.
Defined.

(** ** Paint mode, when it returns *)

(** A paint stroke that hits a face and returns changes that face
    only: all other faces are as before, and the hit face gets the
    material of the active grid when [bpy.data.materials] has it and
    keeps its material when it has not. *)
Theorem execute_paint_assigns_material (w w' : World) (ray_origin ray_vector : Vec)
    (h : Hit) (g : Grid) :
  raycast_object w ray_origin ray_vector = Ok (Some h) ->
  py_index (sprytile_grids (scene w)) (sprytile_gridid (object w)) = Ok g ->
  execute_paint w ray_origin ray_vector = Ok w' ->
  (forall j : nat, j <> hit_face h ->
                   nth_error (faces (bmesh w')) j = nth_error (faces (bmesh w)) j) /\
  ((0 <= materials_find (materials w) (mat_id g))%Z ->
   exists face' : Face,
     nth_error (faces (bmesh w')) (hit_face h) = Some face' /\
     material_index face' = materials_find (materials w) (mat_id g)) /\
  ((materials_find (materials w) (mat_id g) < 0)%Z ->
   map material_index (faces (bmesh w')) = map material_index (faces (bmesh w))).
Proof.
  intros Hray Hg H. unfold execute_paint, get_current_grid_vectors in H.
  rewrite Hray in H. cbn [bind] in H.
  destruct (add_virtual_cursor_frame w (hit_location h)) as (Es & Eo & Em & Eb & _).
  rewrite Es, Eo, Hg in H. cbn [bind] in H.
  destruct (uv_map_face _ _ _ _ _) as [[w1 ret] |] eqn:Euv; [| discriminate].
  cbn [bind] in H.
  destruct ret as [[face_index g'] |]; [| discriminate].
  destruct (uv_map_face_frame _ _ _ _ _ _ _ Euv) as (_ & _ & _ & _ & _ & _ & Hm1).
  destruct (uv_map_face_other_faces _ _ _ _ _ _ _ Euv) as (Hmat & Hother & Hret).
  destruct (Hret face_index g' eq_refl) as (-> & Hg' & Hlt).
  rewrite Es, Eo, Hg in Hg'. injection Hg' as <-.
  rewrite Hmat, Em in H. rewrite Eb in Hother, Hm1, Hlt.
  destruct (-1 <? materials_find (materials w) (mat_id g))%Z eqn:Ef.
  - apply Z.ltb_lt in Ef. unfold py_index in H.
    destruct (nth_error (faces (bmesh w1)) (hit_face h)) as [face |] eqn:En;
      [| discriminate].
    cbn [bind] in H. injection H as <-. cbn [bmesh set_bmesh faces].
    split; [| split].
    + intros j Hj. rewrite nth_error_list_set_other by exact Hj. now apply Hother.
    + intros _. eexists. split; [eapply nth_error_list_set; exact En | reflexivity].
    + intros Hneg. lia.
  - apply Z.ltb_ge in Ef. injection H as <-.
    split; [exact Hother |]. split; [intros Hpos; lia | intros _; exact Hm1].
Qed.

Lemma placed_vectors (m : Matrix) (mats : list string) (g : Grid)
    (history : list Vec) (mesh : BMesh) (t : BVHTree) :
  get_current_grid_vectors (scene (placed_world m mats g history mesh t))
  = (axis_y, axis_x, axis_z).
Proof. exact (sample_vectors g history mesh t). Qed.

Lemma placed_raycast (mats : list string) (g : Grid) (history : list Vec)
    (mesh : BMesh) (h : Hit) (ray_origin ray_direction : Vec) :
  raycast_object (placed_world identity_matrix mats g history mesh (always_hit h))
                 ray_origin ray_direction
  = Ok (Some h).
Proof. exact (sample_raycast g history mesh h ray_origin ray_direction). Qed.

(** A paint stroke on face 0 of two triangles, with the grid's
    material second in [bpy.data.materials], returns. *)
Lemma execute_paint_sample_returns :
  exists w' : World,
    execute_paint
      (placed_world identity_matrix ["other"%string; "tiles"%string] atlas_grid []
         two_triangles (always_hit (mkHit (mkVec 0.25 0 0) axis_z 0 1)))
      (mkVec 0.25 0 1) (mkVec 0 0 (-1)) = Ok w'.
Proof.
  unfold execute_paint. rewrite placed_vectors, placed_raycast. cbn [bind].
  change (add_virtual_cursor ?w ?p) with (set_virtual_cursor w [p]).
  change (py_index (sprytile_grids _) _) with (Ok atlas_grid). cbn [bind].
  erewrite (uv_map_face_value _ _ _ _ _ atlas_grid (mkImage (256, 256)%Z));
    [| reflexivity | simpl; discriminate | simpl; discriminate | simpl; discriminate
     | reflexivity | reflexivity | apply atlas_uv_unit].
  cbn [bind]. eexists. reflexivity.
Qed.

Lemma execute_paint_assigns_material_witness :
  let h := mkHit (mkVec 0.25 0 0) axis_z 0 1 in
  let w := placed_world identity_matrix ["other"%string; "tiles"%string] atlas_grid []
             two_triangles (always_hit h) in
  exists (w' : World) (face' : Face),
    execute_paint w (mkVec 0.25 0 1) (mkVec 0 0 (-1)) = Ok w' /\
    nth_error (faces (bmesh w')) 0 = Some face' /\
    material_index face' = 1%Z /\
    nth_error (faces (bmesh w')) 1 = nth_error (faces (bmesh w)) 1.
Proof.
  cbv zeta. destruct execute_paint_sample_returns as [w' E].
  destruct (execute_paint_assigns_material _ _ (mkVec 0.25 0 1) (mkVec 0 0 (-1))
              (mkHit (mkVec 0.25 0 0) axis_z 0 1) atlas_grid
              (placed_raycast _ _ _ _ _ _ _) eq_refl E)
    as (Hother & Hfound & _).
  destruct (Hfound ltac:(vm_compute; discriminate)) as (face' & Hn & Hm).
  exists w', face'. split; [exact E |]. split; [exact Hn |].
  split; [exact Hm |]. apply Hother. discriminate.
Defined.
